(** * Offline queue and synchronisation of the point-card client

    A shallow embedding of [src/app.js] (scan ingestion, the IndexedDB
    queue, batch synchronisation, device identity) and of [src/sw.js]
    (the service worker that serves the application shell), followed by
    the properties of the queue and of the sync protocol.

    JavaScript strings are sequences of UTF-16 code units, asynchronous
    functions are computations in a state-and-exception monad over the
    state of the device and of the page, and everything the program asks
    of its surroundings (network answers, storage faults, the clock, the
    random generator, the answer to a confirmation dialog) is read from
    scripts carried by that state.

    What the embedding takes for granted:
    - every [await] comes back: a request that never completes is not a
      run of the embedding (a browser that gives up on a request rejects
      the promise of [fetch]);
    - one listener or one [syncData] runs at a time, as the page intends
      by disabling the sync button; a call whose promise is dropped
      ([updateQueueCount()]) runs to its end where it is called;
    - [localStorage] takes every write (were it not so, line 34 would stop
      the script as it loads);
    - a transaction of the database commits or aborts before the next
      operation on the database starts; one that aborts as it commits
      undoes what its request did, after the promise of the helper has
      resolved;
    - the deletion of the database that [resetDevice] requests is still
      to come when its statements end: the runs of the embedding are
      those of a device with no deletion pending;
    - [loadSettings] is left out: the listener and [syncData] read the
      global [settings], whatever values it holds. *)

From Stdlib Require Import ZArith NArith List String Ascii Lia Bool Sorted.
From stdpp Require Import base option list gmap strings pretty.

Open Scope Z_scope.

(* ===================================================================== *)
(** ** JavaScript strings *)
(* ===================================================================== *)

(** A JavaScript string: its UTF-16 code units ([s.length] is the length
    of the list). *)
Definition code_unit := N.
Definition jsstring := list code_unit.

(** An ASCII literal of the source as a JavaScript string. *)
Definition js (s : string) : jsstring :=
  map N_of_ascii (list_ascii_of_string s).

(** [WhiteSpace] and [LineTerminator] of ECMAScript, the code points that
    [String.prototype.trim] removes. *)
Definition is_js_whitespace (c : code_unit) : bool :=
  ((c =? 0x09) || (c =? 0x0A) || (c =? 0x0B) || (c =? 0x0C) || (c =? 0x0D)
   || (c =? 0x20) || (c =? 0xA0) || (c =? 0x1680)
   || ((0x2000 <=? c) && (c <=? 0x200A))
   || (c =? 0x2028) || (c =? 0x2029) || (c =? 0x202F) || (c =? 0x205F)
   || (c =? 0x3000) || (c =? 0xFEFF))%N.

Fixpoint trimStart (s : jsstring) : jsstring :=
  match s with
  | c :: r => if is_js_whitespace c then trimStart r else s
  | [] => []
  end.

Definition trimEnd (s : jsstring) : jsstring := rev (trimStart (rev s)).

(** [s.trim()] *)
Definition trim (s : jsstring) : jsstring := trimEnd (trimStart s).

(** The class [\d] of a regular expression without the [u] flag: the ten
    ASCII digits. *)
Definition is_digit (c : code_unit) : bool := ((0x30 <=? c) && (c <=? 0x39))%N.

(** [/^\d+$/.test(s)]: one digit or more, from the start of the input to
    its end. *)
Definition test_digits (s : jsstring) : bool :=
  match s with
  | [] => false
  | c :: r => is_digit c && forallb is_digit r
  end.

(* ===================================================================== *)
(** ** JavaScript values *)
(* ===================================================================== *)

Set Warnings "-register-all".

Inductive JsNum :=
| NaN
| Num (z : Z).

(** The values that flow through the program: the parsed body of a
    response, the fields of [settings], thrown errors. Numbers are the
    integers and [NaN]. *)
Inductive JsVal :=
| VUndefined
| VNull
| VBool (b : bool)
| VNum (n : JsNum)
| VStr (s : jsstring)
| VArr (items : list JsVal)
| VObj (fields : list (jsstring * JsVal))
| VError (name : jsstring) (message : jsstring).

(** Truthiness, as [!v], [v || d] and [if (v)] see it. *)
Definition truthy (v : JsVal) : bool :=
  match v with
  | VUndefined | VNull => false
  | VBool b => b
  | VNum NaN => false
  | VNum (Num z) => negb (z =? 0)
  | VStr s => negb (length s =? 0)%nat
  | VArr _ | VObj _ | VError _ _ => true
  end.

(** [a || b] on values. *)
Definition js_or (a b : JsVal) : JsVal := if truthy a then a else b.

(** [v === 200] *)
Definition strict_eq_200 (v : JsVal) : bool :=
  match v with
  | VNum (Num 200) => true
  | _ => false
  end.

Definition jsstring_eqb (a b : jsstring) : bool := bool_decide (a = b).

Fixpoint lookup_field (k : jsstring) (fields : list (jsstring * JsVal)) : JsVal :=
  match fields with
  | [] => VUndefined
  | (k', v) :: r => if jsstring_eqb k k' then v else lookup_field k r
  end.

(** The last occurrence of a key wins in [JSON.parse]; [VObj] lists the
    fields with the winning occurrence first. *)

Definition TypeError_property : JsVal :=
  VError (js "TypeError") (js "Cannot read properties of null or undefined").

(* ===================================================================== *)
(** ** Computations: state and exceptions *)
(* ===================================================================== *)

(** How a statement ends: normally with a value, or abruptly with a thrown
    value (for an [async] function, a rejected promise). *)
Inductive outcome (A : Type) :=
| Return (a : A)
| Throw (e : JsVal).
Arguments Return {A} a.
Arguments Throw {A} e.

Definition M (S A : Type) : Type := S -> outcome A * S.

Definition ret {S A} (a : A) : M S A := fun s => (Return a, s).

Definition bind {S A B} (m : M S A) (k : A -> M S B) : M S B :=
  fun s =>
    match m s with
    | (Return a, s') => k a s'
    | (Throw e, s') => (Throw e, s')
    end.

Definition throw {S A} (e : JsVal) : M S A := fun s => (Throw e, s).

Definition gets {S A} (f : S -> A) : M S A := fun s => (Return (f s), s).

Definition modify {S} (f : S -> S) : M S unit := fun s => (Return tt, f s).

(** [try { m } catch (e) { h e }] *)
Definition try_catch {S A} (m : M S A) (h : JsVal -> M S A) : M S A :=
  fun s =>
    match m s with
    | (Return a, s') => (Return a, s')
    | (Throw e, s') => h e s'
    end.

(** [try { m } finally { f }]: [f] runs however [m] ends, and the way [m]
    ended is kept unless [f] itself throws. *)
Definition try_finally {S A} (m : M S A) (f : M S unit) : M S A :=
  fun s =>
    let (r, s') := m s in
    match f s' with
    | (Return _, s'') => (r, s'')
    | (Throw e, s'') => (Throw e, s'')
    end.

#[global] Instance M_ret {S} : MRet (M S) := fun A => @ret S A.
#[global] Instance M_bind {S} : MBind (M S) := fun A B k m => @bind S A B m k.

(** [v.k]: reading a property of [undefined] or [null] throws; an object
    answers with the field, or [undefined]; an error object has its
    [message] and [name]; no other value has one of the properties read
    here ([status], [message]). *)
Definition get_prop {S} (v : JsVal) (k : jsstring) : M S JsVal :=
  match v with
  | VUndefined | VNull => throw TypeError_property
  | VObj fields => ret (lookup_field k fields)
  | VError name message =>
      if jsstring_eqb k (js "message") then ret (VStr message)
      else if jsstring_eqb k (js "name") then ret (VStr name)
      else ret VUndefined
  | VBool _ | VNum _ | VStr _ | VArr _ => ret VUndefined
  end.

(* ===================================================================== *)
(** ** The device and the page *)
(* ===================================================================== *)

(** An instant rendered by [Date.prototype.toISOString]; the instant is
    kept as milliseconds since the epoch. *)
Inductive iso8601 := ISOString (ms : Z).

(** A record of the object store [pointQueue]; [id] is the key path,
    filled in by the key generator of the store. *)
Record Entry := {
  entry_id : N;
  memberId : jsstring;
  timestamp : iso8601;
  entryDeviceId : jsstring
}.

(** The object store [pointQueue] of the database [PointCardDB]: its
    records in ascending key order and the current number of its key
    generator ([autoIncrement: true]). *)
Record ObjectStore := {
  records : list Entry;
  keyGenerator : N
}.

(** The store as [onupgradeneeded] creates it. *)
Definition createObjectStore : ObjectStore :=
  {| records := []; keyGenerator := 1 |}.

(** [let settings = {}; // { appsScriptUrl, storeId, pointValue }] *)
Record Settings := {
  appsScriptUrl : JsVal;
  storeId : JsVal;
  pointValue : JsVal
}.

Definition empty_settings : Settings :=
  {| appsScriptUrl := VUndefined; storeId := VUndefined; pointValue := VUndefined |}.

(** The texts written to [currentStatusSpan.textContent]; the interpolated
    values are kept as they are. *)
Inductive StatusText :=
| TxtBlank
| TxtSyncing                          (* '同期中...' *)
| TxtNothingToSync                    (* '同期するデータがありません。' *)
| TxtSyncSuccess (message : JsVal)    (* `同期成功: ${result.message}` *)
| TxtSyncFailed (message : JsVal)     (* `同期失敗: ${result.message || '不明なエラー'}` *)
| TxtSyncError (message : JsVal)      (* `同期エラー: ${error.message}. (データは端末に保持されています)` *)
| TxtSettingsIncomplete               (* '設定未完了' *)
| TxtPointAdded (memberId : jsstring) (* `ポイント追加: ${memberId} (オフラインキューに保存)` *)
| TxtInvalidMember (memberId : jsstring). (* `無効な会員番号: ${memberId}` *)

Inductive ClassName := ClsNone | ClsInfo | ClsSuccess | ClsError.

(** The text of the two cells of [scanResultDiv]. *)
Inductive ScanResultView :=
| ScanResultEmpty
| ScanResultRead (memberId : jsstring)  (* '読み取りました！', memberId *)
| ScanResultFailed.                     (* '読み取り失敗', '無効な会員番号' *)

(** '不明なエラー' *)
Definition UNKNOWN_ERROR : jsstring :=
  [0x4E0D; 0x660E; 0x306A; 0x30A8; 0x30E9; 0x30FC]%N.

(** The bodies handed to [JSON.stringify] for the two kinds of request. *)
Inductive Payload :=
| BatchPayload (storeId pointValue : JsVal)
               (data : list (jsstring * iso8601)) (deviceId : jsstring)
| UpdateLastSyncTime (deviceId : jsstring).

(** A call [fetch(url, { method: 'POST', headers, body })]. *)
Record Request := {
  req_url : JsVal;
  req_body : Payload
}.

(** What a call of [fetch] meets: a rejection (the network cannot be
    reached, the browser gives up waiting), or a response with its [ok] flag and
    its body as [response.json()] parses it ([None]: the body is not
    JSON, and [json()] rejects). *)
Inductive FetchOutcome :=
| NetReject (name message : jsstring)
| NetResponse (ok : bool) (body : option JsVal).

(** What one operation on the database meets: it goes through; opening
    the database fails; the request on the store fails with an error; or
    the request succeeds and the transaction then aborts as it commits
    (the quota, the disk), which undoes what the request did. The helpers
    settle their promise on [request.onsuccess] or [request.onerror] and
    listen to no event of the transaction: in the last case the promise
    has resolved and the program is told nothing. *)
Inductive IdbOutcome :=
| IdbOk
| IdbOpenError
| IdbRequestError (name message : jsstring)
| IdbCommitAborted.

(** The promise of the operation rejects. *)
Definition idb_rejects (o : IdbOutcome) : bool :=
  match o with
  | IdbOpenError | IdbRequestError _ _ => true
  | IdbOk | IdbCommitAborted => false
  end.

Inductive LogEntry :=
| LogIndexedDBError                   (* console.error('IndexedDB error:', ...) *)
| LogLastSyncUpdated                  (* console.log('Last sync time updated on Apps Script.') *)
| WarnLastSyncFailed (e : JsVal)      (* console.warn('Failed to update last sync time ...', e) *)
| LogSyncError (e : JsVal)            (* console.error('Sync error:', error) *)
| UnhandledRejection (e : JsVal).     (* a rejected promise that nothing awaits *)

Inductive Dialog :=
| AlertSettingsFirst                  (* alert('先にApps Script URL, ... を設定して保存してください。') *)
| ConfirmReset.                       (* confirm('端末設定と未同期データをすべてリセットします。...') *)

(** What stays on the device across page loads. *)
Record Device := {
  localStorage : gmap jsstring jsstring;
  indexedDB : option ObjectStore        (* [None]: [PointCardDB] does not exist *)
}.

(** The globals of [app.js] and the elements of the page it writes to. *)
Record Page := {
  settings : Settings;
  deviceId : jsstring;
  scanInput_value : jsstring;
  currentStatus : StatusText * ClassName;
  offlineQueueCount : option nat;
  lastSyncTimeSpan : option Z;
  syncDataButton_disabled : bool;
  scanResult : ScanResultView
}.

(** The surroundings: what the next calls of [fetch], the next database
    operations, the next readings of the clock, the next random draws and
    the next [confirm] dialogs will answer. *)
Record Env := {
  net_script : list FetchOutcome;
  idb_script : list IdbOutcome;
  clock : list Z;
  rng : list N;
  confirm_script : list bool
}.

(** What the program did to its surroundings. *)
Record Trace := {
  net_log : list Request;
  console : list LogEntry;
  dialogs : list Dialog;
  deleteDatabase_log : list jsstring   (* the databases whose deletion was requested *)
}.

Record World := {
  device : Device;
  page : Page;
  env : Env;
  trace : Trace
}.

Definition DB_NAME : jsstring := js "PointCardDB".
Definition STORE_NAME : jsstring := js "pointQueue".
Definition SETTINGS_KEY : jsstring := js "pointCardSettings".
Definition LAST_SYNC_KEY : jsstring := js "lastSyncTime".
Definition DEVICE_ID_KEY : jsstring := js "deviceId".

(** The queue: the records of the store, none when the database does not
    exist yet. *)
Definition queue (w : World) : list Entry :=
  match indexedDB (device w) with
  | Some st => records st
  | None => []
  end.

(* --------------------------------------------------------------------- *)
(** *** Field updates *)

Definition with_device (f : Device -> Device) (w : World) : World :=
  {| device := f (device w); page := page w; env := env w; trace := trace w |}.
Definition with_page (f : Page -> Page) (w : World) : World :=
  {| device := device w; page := f (page w); env := env w; trace := trace w |}.
Definition with_env (f : Env -> Env) (w : World) : World :=
  {| device := device w; page := page w; env := f (env w); trace := trace w |}.
Definition with_trace (f : Trace -> Trace) (w : World) : World :=
  {| device := device w; page := page w; env := env w; trace := f (trace w) |}.

Definition set_localStorage (m : gmap jsstring jsstring) (d : Device) : Device :=
  {| localStorage := m; indexedDB := indexedDB d |}.
Definition set_indexedDB (db : option ObjectStore) (d : Device) : Device :=
  {| localStorage := localStorage d; indexedDB := db |}.

Definition set_deviceId (v : jsstring) (p : Page) : Page :=
  {| settings := settings p; deviceId := v;
     scanInput_value := scanInput_value p; currentStatus := currentStatus p;
     offlineQueueCount := offlineQueueCount p;
     lastSyncTimeSpan := lastSyncTimeSpan p;
     syncDataButton_disabled := syncDataButton_disabled p;
     scanResult := scanResult p |}.
Definition set_scanInput_value (v : jsstring) (p : Page) : Page :=
  {| settings := settings p; deviceId := deviceId p;
     scanInput_value := v; currentStatus := currentStatus p;
     offlineQueueCount := offlineQueueCount p;
     lastSyncTimeSpan := lastSyncTimeSpan p;
     syncDataButton_disabled := syncDataButton_disabled p;
     scanResult := scanResult p |}.
Definition set_currentStatus (v : StatusText * ClassName) (p : Page) : Page :=
  {| settings := settings p; deviceId := deviceId p;
     scanInput_value := scanInput_value p; currentStatus := v;
     offlineQueueCount := offlineQueueCount p;
     lastSyncTimeSpan := lastSyncTimeSpan p;
     syncDataButton_disabled := syncDataButton_disabled p;
     scanResult := scanResult p |}.
Definition set_offlineQueueCount (v : option nat) (p : Page) : Page :=
  {| settings := settings p; deviceId := deviceId p;
     scanInput_value := scanInput_value p; currentStatus := currentStatus p;
     offlineQueueCount := v;
     lastSyncTimeSpan := lastSyncTimeSpan p;
     syncDataButton_disabled := syncDataButton_disabled p;
     scanResult := scanResult p |}.
Definition set_lastSyncTimeSpan (v : option Z) (p : Page) : Page :=
  {| settings := settings p; deviceId := deviceId p;
     scanInput_value := scanInput_value p; currentStatus := currentStatus p;
     offlineQueueCount := offlineQueueCount p;
     lastSyncTimeSpan := v;
     syncDataButton_disabled := syncDataButton_disabled p;
     scanResult := scanResult p |}.
Definition set_syncDataButton_disabled (v : bool) (p : Page) : Page :=
  {| settings := settings p; deviceId := deviceId p;
     scanInput_value := scanInput_value p; currentStatus := currentStatus p;
     offlineQueueCount := offlineQueueCount p;
     lastSyncTimeSpan := lastSyncTimeSpan p;
     syncDataButton_disabled := v;
     scanResult := scanResult p |}.
Definition set_scanResult (v : ScanResultView) (p : Page) : Page :=
  {| settings := settings p; deviceId := deviceId p;
     scanInput_value := scanInput_value p; currentStatus := currentStatus p;
     offlineQueueCount := offlineQueueCount p;
     lastSyncTimeSpan := lastSyncTimeSpan p;
     syncDataButton_disabled := syncDataButton_disabled p;
     scanResult := v |}.

Definition set_net_script (v : list FetchOutcome) (e : Env) : Env :=
  {| net_script := v; idb_script := idb_script e; clock := clock e;
     rng := rng e; confirm_script := confirm_script e |}.
Definition set_idb_script (v : list IdbOutcome) (e : Env) : Env :=
  {| net_script := net_script e; idb_script := v; clock := clock e;
     rng := rng e; confirm_script := confirm_script e |}.
Definition set_clock (v : list Z) (e : Env) : Env :=
  {| net_script := net_script e; idb_script := idb_script e; clock := v;
     rng := rng e; confirm_script := confirm_script e |}.
Definition set_rng (v : list N) (e : Env) : Env :=
  {| net_script := net_script e; idb_script := idb_script e; clock := clock e;
     rng := v; confirm_script := confirm_script e |}.
Definition set_confirm_script (v : list bool) (e : Env) : Env :=
  {| net_script := net_script e; idb_script := idb_script e; clock := clock e;
     rng := rng e; confirm_script := v |}.

Definition log_request (r : Request) (t : Trace) : Trace :=
  {| net_log := net_log t ++ [r]; console := console t; dialogs := dialogs t;
     deleteDatabase_log := deleteDatabase_log t |}.
Definition log_console (l : LogEntry) (t : Trace) : Trace :=
  {| net_log := net_log t; console := console t ++ [l]; dialogs := dialogs t;
     deleteDatabase_log := deleteDatabase_log t |}.
Definition log_dialog (d : Dialog) (t : Trace) : Trace :=
  {| net_log := net_log t; console := console t; dialogs := dialogs t ++ [d];
     deleteDatabase_log := deleteDatabase_log t |}.

(* ===================================================================== *)
(** ** What the browser provides *)
(* ===================================================================== *)

(** [localStorage.getItem(k)]; [None] is [null]. *)
Definition localStorage_getItem (k : jsstring) : M World (option jsstring) :=
  gets (fun w => localStorage (device w) !! k).

(** [localStorage.setItem(k, v)] *)
Definition localStorage_setItem (k v : jsstring) : M World unit :=
  modify (with_device (fun d => set_localStorage (<[k := v]> (localStorage d)) d)).

(** [localStorage.clear()] *)
Definition localStorage_clear : M World unit :=
  modify (with_device (set_localStorage ∅)).

(** [indexedDB.deleteDatabase(name)] returns a request at once and deletes
    nothing while the caller runs: the browser carries the deletion out
    later, and not before every connection to the database is closed;
    [openDB] closes none of those it opens, so the request stays blocked
    as long as they live. [resetDevice] drops the request. The call is
    recorded; the database is as it was when the call returns. What the
    browser does afterwards is not part of a run: the operations on the
    database below are those of a device with no deletion pending. *)
Definition indexedDB_deleteDatabase (name : jsstring) : M World unit :=
  modify (with_trace (fun t =>
    {| net_log := net_log t; console := console t; dialogs := dialogs t;
       deleteDatabase_log := deleteDatabase_log t ++ [name] |})).

(** [new Date()]: the next reading of the clock, in milliseconds since the
    epoch. *)
Definition new_Date : M World Z :=
  fun w => (Return (hd 0 (clock (env w))),
            with_env (set_clock (tl (clock (env w)))) w).

Definition hex_digit (n : N) : code_unit :=
  (if n <? 10 then 0x30 + n else 0x61 + (n - 10))%N.

Definition hex_byte (b : N) : jsstring :=
  [hex_digit (b / 16 mod 16); hex_digit (b mod 16)]%N.

(** Byte [i] of a random draw. *)
Definition draw_byte (e : N) (i : N) : N := (N.shiftr e (8 * i) mod 256)%N.

(** A version-4 UUID in its canonical text form, from 16 random bytes:
    the version nibble is 4 and the variant bits are [10]. *)
Definition uuid_v4 (e : N) : jsstring :=
  let b := draw_byte e in
  let dash := [0x2D%N] in
  hex_byte (b 0%N) ++ hex_byte (b 1%N) ++ hex_byte (b 2%N) ++ hex_byte (b 3%N)
  ++ dash ++ hex_byte (b 4%N) ++ hex_byte (b 5%N)
  ++ dash ++ hex_byte (N.lor (N.land (b 6%N) 0x0F) 0x40) ++ hex_byte (b 7%N)
  ++ dash ++ hex_byte (N.lor (N.land (b 8%N) 0x3F) 0x80) ++ hex_byte (b 9%N)
  ++ dash ++ hex_byte (b 10%N) ++ hex_byte (b 11%N) ++ hex_byte (b 12%N)
  ++ hex_byte (b 13%N) ++ hex_byte (b 14%N) ++ hex_byte (b 15%N).

(** [crypto.randomUUID()]: the next random draw, as a version-4 UUID. *)
Definition crypto_randomUUID : M World jsstring :=
  fun w => (Return (uuid_v4 (hd 0%N (rng (env w)))),
            with_env (set_rng (tl (rng (env w)))) w).

(** [alert(msg)] *)
Definition alert (d : Dialog) : M World unit :=
  modify (with_trace (log_dialog d)).

(** [confirm(msg)]: the next answer of the user; a dialog nobody answers
    counts as cancelled. *)
Definition confirm (d : Dialog) : M World bool :=
  fun w => (Return (hd false (confirm_script (env w))),
            with_env (set_confirm_script (tl (confirm_script (env w))))
              (with_trace (log_dialog d) w)).

Definition console_log (l : LogEntry) : M World unit :=
  modify (with_trace (log_console l)).

(** The [Response] of a [fetch] that resolved. *)
Record Response := {
  ok : bool;
  body : option JsVal
}.

(** With no network answer left a request fails as it does off line. *)
Definition OFFLINE : FetchOutcome := NetReject (js "TypeError") (js "Failed to fetch").

(** What the [n]-th coming call of [fetch] will meet. *)
Definition fetch_fate (n : nat) (w : World) : FetchOutcome :=
  hd OFFLINE (Nat.iter n (@tl _) (net_script (env w))).

(** [fetch(url, { method: 'POST', headers: {'Content-Type': 'application/json'},
    body: JSON.stringify(payload) })]: the request leaves, and the promise
    resolves with a response or rejects. *)
Definition fetch (url : JsVal) (payload : Payload) : M World Response :=
  fun w =>
    let w' := with_env (set_net_script (tl (net_script (env w))))
                (with_trace (log_request {| req_url := url; req_body := payload |}) w) in
    match fetch_fate 0 w with
    | NetResponse o b => (Return {| ok := o; body := b |}, w')
    | NetReject name message => (Throw (VError name message), w')
    end.

(** [response.json()] *)
Definition Response_json (r : Response) : M World JsVal :=
  match body r with
  | Some v => ret v
  | None => throw (VError (js "SyntaxError") (js "Unexpected token"))
  end.

(** A call of an [async] function whose promise is dropped: the callee
    runs, and a rejection reaches nobody but the console. *)
Definition detached (m : M World unit) : M World unit :=
  fun w =>
    match m w with
    | (Return _, w') => (Return tt, w')
    | (Throw e, w') => (Return tt, with_trace (log_console (UnhandledRejection e)) w')
    end.

(* ===================================================================== *)
(** ** [app.js] *)
(* ===================================================================== *)

(** *** Device identity (lines 31-34)

    [let deviceId = localStorage.getItem(DEVICE_ID_KEY) || crypto.randomUUID();
     localStorage.setItem(DEVICE_ID_KEY, deviceId);]
    runs each time the page loads. [||] draws a UUID only when the stored
    value is [null] or empty. *)
Definition getOrCreate : M World jsstring :=
  stored ← localStorage_getItem DEVICE_ID_KEY;
  d ← match stored with
      | Some s => if truthy (VStr s) then ret s else crypto_randomUUID
      | None => crypto_randomUUID
      end;
  modify (with_page (set_deviceId d));;
  localStorage_setItem DEVICE_ID_KEY d;;
  ret d.

(** *** IndexedDB helpers *)

(** What the [n]-th coming operation on the database will meet; with no
    fault left in the script the storage works. *)
Definition idb_fate (n : nat) (w : World) : IdbOutcome :=
  hd IdbOk (Nat.iter n (@tl _) (idb_script (env w))).

(** The fate of the next operation on the database. *)
Definition idb_next : M World IdbOutcome :=
  fun w => (Return (idb_fate 0 w),
            with_env (set_idb_script (tl (idb_script (env w)))) w).

(** [openDB()]: [onerror] logs and rejects with the string
    ['IndexedDB error']; otherwise the database is there when the promise
    resolves, [onupgradeneeded] having created the store of a new one. *)
Definition openDB (o : IdbOutcome) : M World unit :=
  match o with
  | IdbOpenError =>
      console_log LogIndexedDBError;;
      throw (VStr (js "IndexedDB error"))
  | _ =>
      modify (with_device (fun d =>
        match indexedDB d with
        | Some _ => d
        | None => set_indexedDB (Some createObjectStore) d
        end))
  end.

(** The store behind the handle that [openDB] resolved with. *)
Definition objectStore (w : World) : ObjectStore :=
  match indexedDB (device w) with
  | Some st => st
  | None => createObjectStore
  end.

(** [store.add(entry)]: the key generator gives the record its [id]. A
    transaction that aborts as it commits takes the record back, and the
    number of the key generator with it. *)
Definition store_add (o : IdbOutcome) (m : jsstring) (t : iso8601) (d : jsstring)
  : M World unit :=
  match o with
  | IdbRequestError name message => throw (VError name message)
  | IdbCommitAborted => ret tt
  | _ =>
      modify (fun w =>
        let st := objectStore w in
        let entry := {| entry_id := keyGenerator st; memberId := m;
                        timestamp := t; entryDeviceId := d |} in
        with_device (set_indexedDB (Some
          {| records := records st ++ [entry];
             keyGenerator := (keyGenerator st + 1)%N |})) w)
  end.

(** [store.getAll()]: the result is in the hands of the caller when the
    request succeeds, whatever becomes of the read-only transaction. *)
Definition store_getAll (o : IdbOutcome) : M World (list Entry) :=
  match o with
  | IdbRequestError name message => throw (VError name message)
  | _ => gets (fun w => records (objectStore w))
  end.

(** [store.clear()]: the records go, the key generator keeps its number. A
    transaction that aborts as it commits leaves the records where they
    were. *)
Definition store_clear (o : IdbOutcome) : M World unit :=
  match o with
  | IdbRequestError name message => throw (VError name message)
  | IdbCommitAborted => ret tt
  | _ =>
      modify (fun w =>
        with_device (set_indexedDB (Some
          {| records := []; keyGenerator := keyGenerator (objectStore w) |})) w)
  end.

Definition addEntry (memberId : jsstring) : M World unit :=
  o ← idb_next;
  openDB o;;
  now ← new_Date;
  d ← gets (fun w => deviceId (page w));
  store_add o memberId (ISOString now) d.

Definition getAllEntries : M World (list Entry) :=
  o ← idb_next;
  openDB o;;
  store_getAll o.

Definition clearEntries : M World unit :=
  o ← idb_next;
  openDB o;;
  store_clear o.

Definition updateQueueCount : M World unit :=
  entries ← getAllEntries;
  modify (with_page (set_offlineQueueCount (Some (length entries)))).

(** *** Scanner input *)

Definition set_status (t : StatusText) (c : ClassName) : M World unit :=
  modify (with_page (set_currentStatus (t, c))).

(** [displayScanResult(message, memberId)]; the timer that blanks the two
    cells three seconds later fires outside the run of a handler. *)
Definition displayScanResult (v : ScanResultView) : M World unit :=
  modify (with_page (set_scanResult v)).

(** [memberId.length === 14 && /^\d+$/.test(memberId)] *)
Definition valid_memberId (memberId : jsstring) : bool :=
  (length memberId =? 14)%nat && test_digits memberId.

(** The [keypress] listener of [scanInput]. *)
Definition scanInput_keypress (key : jsstring) : M World unit :=
  if jsstring_eqb key (js "Enter") then
    raw ← gets (fun w => scanInput_value (page w));
    let memberId := trim raw in
    modify (with_page (set_scanInput_value []));;
    s ← gets (fun w => settings (page w));
    if negb (truthy (appsScriptUrl s)) || negb (truthy (storeId s))
       || negb (truthy (pointValue s))
    then
      alert AlertSettingsFirst;;
      set_status TxtSettingsIncomplete ClsError
    else
      (if valid_memberId memberId then
         addEntry memberId;;
         detached updateQueueCount;;
         set_status (TxtPointAdded memberId) ClsSuccess;;
         displayScanResult (ScanResultRead memberId)
       else
         set_status (TxtInvalidMember memberId) ClsError;;
         displayScanResult ScanResultFailed)
  else ret tt.

(** The scanner types [rawInput] into the field and ends it with Enter. *)
Definition submitScan (rawInput : jsstring) : M World unit :=
  modify (with_page (set_scanInput_value rawInput));;
  scanInput_keypress (js "Enter").

(** *** Synchronisation *)

Definition batch_of (s : Settings) (entries : list Entry) (d : jsstring) : Payload :=
  BatchPayload (storeId s) (pointValue s)
    (map (fun entry => (memberId entry, timestamp entry)) entries) d.

(** The body of the [try] block of [syncData]. *)
Definition syncData_try (entries : list Entry) : M World unit :=
  s ← gets (fun w => settings (page w));
  d ← gets (fun w => deviceId (page w));
  let payload := batch_of s entries d in
  response ← fetch (appsScriptUrl s) payload;
  result ← Response_json response;
  accepted ← (if ok response
              then status ← get_prop result (js "status");
                   ret (strict_eq_200 status)
              else ret false);
  if (accepted : bool) then
    clearEntries;;
    detached updateQueueCount;;
    now ← new_Date;
    localStorage_setItem LAST_SYNC_KEY (js (pretty now));;
    modify (with_page (set_lastSyncTimeSpan (Some now)));;
    message ← get_prop result (js "message");
    set_status (TxtSyncSuccess message) ClsSuccess;;
    d' ← gets (fun w => deviceId (page w));
    try_catch
      (fetch (appsScriptUrl s) (UpdateLastSyncTime d');;
       console_log LogLastSyncUpdated)
      (fun syncTimeError => console_log (WarnLastSyncFailed syncTimeError))
  else
    message ← get_prop result (js "message");
    set_status (TxtSyncFailed (js_or message (VStr UNKNOWN_ERROR))) ClsError.

(** The [catch (error)] block of [syncData]. *)
Definition syncData_catch (error : JsVal) : M World unit :=
  console_log (LogSyncError error);;
  message ← get_prop error (js "message");
  set_status (TxtSyncError message) ClsError.

(** The [finally] block of [syncData]. *)
Definition syncData_finally : M World unit :=
  modify (with_page (set_syncDataButton_disabled false)).

Definition syncData : M World unit :=
  set_status TxtSyncing ClsInfo;;
  modify (with_page (set_syncDataButton_disabled true));;
  entries ← getAllEntries;
  if (length entries =? 0)%nat then
    set_status TxtNothingToSync ClsInfo;;
    modify (with_page (set_syncDataButton_disabled false))
  else
    try_finally (try_catch (syncData_try entries) syncData_catch)
                syncData_finally.

(** *** Device reset *)

(** The statements of [resetDevice] that the source shows, run once the
    user has confirmed (lines 255-257). *)
Definition resetDevice_confirmed : M World unit :=
  localStorage_clear;;
  indexedDB_deleteDatabase DB_NAME;;
  d ← crypto_randomUUID;
  modify (with_page (set_deviceId d)).

(** Modelled from the spec: the statements of [resetDevice] after line 257
    are missing from [src/app.js]. Section 4.2 has [reset()] discard the
    persisted identifier and "generate + persist a new one": the new
    [deviceId] is written back under [DEVICE_ID_KEY]. *)
Definition resetDevice_persist : M World unit :=
  d ← gets (fun w => deviceId (page w));
  localStorage_setItem DEVICE_ID_KEY d.

Definition resetDevice : M World unit :=
  confirmed ← confirm ConfirmReset;
  if (confirmed : bool) then
    resetDevice_confirmed;;
    resetDevice_persist
  else ret tt.

(* ===================================================================== *)
(** ** Outcomes, as the operator reads them *)
(* ===================================================================== *)

(** Neither the listener nor [syncData] returns a value: the outcome of a
    run is what it leaves in [currentStatusSpan] when it returns. A run
    that ends with an exception reports nothing. *)

Inductive SyncOutcome :=
| NothingToSync
| Success (message : JsVal)
| RemoteRejected (message : JsVal)
| TransportError (detail : JsVal).

Definition sync_outcome (run : outcome unit * World) : option SyncOutcome :=
  match run with
  | (Return _, w) =>
      match fst (currentStatus (page w)) with
      | TxtNothingToSync => Some NothingToSync
      | TxtSyncSuccess m => Some (Success m)
      | TxtSyncFailed m => Some (RemoteRejected m)
      | TxtSyncError m => Some (TransportError m)
      | _ => None
      end
  | (Throw _, _) => None
  end.

Inductive RejectReason :=
| InvalidMemberIdentifier
| ConfigurationMissing
| StorageFault.

Inductive ScanOutcome :=
| Accepted (memberId : jsstring)
| Rejected (reason : RejectReason).

Definition scan_outcome (run : outcome unit * World) : option ScanOutcome :=
  match run with
  | (Return _, w) =>
      match fst (currentStatus (page w)) with
      | TxtPointAdded m => Some (Accepted m)
      | TxtInvalidMember _ => Some (Rejected InvalidMemberIdentifier)
      | TxtSettingsIncomplete => Some (Rejected ConfigurationMissing)
      | _ => None
      end
  | (Throw _, _) => None
  end.

(** The Last-Sync Marker: the entry [lastSyncTime] of [localStorage]. *)
Definition lastSyncMarker (w : World) : option jsstring :=
  localStorage (device w) !! LAST_SYNC_KEY.

(** The persisted device identifier. *)
Definition persistedDeviceId (w : World) : option jsstring :=
  localStorage (device w) !! DEVICE_ID_KEY.

(** A configuration value is missing when it is [undefined], or empty, zero
    or [NaN]: what [!v] takes for absent. *)
Definition settings_missing (s : Settings) : Prop :=
  truthy (appsScriptUrl s) = false ∨ truthy (storeId s) = false
  ∨ truthy (pointValue s) = false.

Definition settings_present (s : Settings) : Prop :=
  truthy (appsScriptUrl s) = true ∧ truthy (storeId s) = true
  ∧ truthy (pointValue s) = true.

(** A body whose properties can be read: anything but [null]. *)
Definition readable (v : JsVal) : bool :=
  match v with
  | VUndefined | VNull => false
  | _ => true
  end.

(** The first answer of the remote end is a confirmed success: the
    response is [ok] and its body has [status] 200. *)
Definition remote_success (o : FetchOutcome) : option JsVal :=
  match o with
  | NetResponse true (Some (VObj fields)) =>
      if strict_eq_200 (lookup_field (js "status") fields)
      then Some (lookup_field (js "message") fields)
      else None
  | _ => None
  end.

(** The outcome that goes with a failed submission: a body that can be
    read and is not a confirmed success is a rejection by the remote end,
    with its message; a request that did not come back, a body that is
    not JSON and a body whose properties cannot be read are errors of
    transport, with the message of the error. *)
Definition failure_outcome (o : FetchOutcome) : option SyncOutcome :=
  match o with
  | NetReject name message => Some (TransportError (VStr message))
  | NetResponse _ None => Some (TransportError (VStr (js "Unexpected token")))
  | NetResponse k (Some v) =>
      match v with
      | VUndefined | VNull =>
          Some (TransportError
                  (VStr (js "Cannot read properties of null or undefined")))
      | VObj fields =>
          if k && strict_eq_200 (lookup_field (js "status") fields) then None
          else Some (RemoteRejected
                       (js_or (lookup_field (js "message") fields) (VStr UNKNOWN_ERROR)))
      | VError name message =>
          Some (RemoteRejected (js_or (VStr message) (VStr UNKNOWN_ERROR)))
      | _ => Some (RemoteRejected (VStr UNKNOWN_ERROR))
      end
  end.

(* ===================================================================== *)
(** ** [sw.js] *)
(* ===================================================================== *)

Module SW.

(** A request as the worker sees it; URLs are written as in
    [urlsToCache], relative to the scope of the worker. *)
Record Request := {
  method : jsstring;
  url : jsstring
}.

Record Response := {
  ok : bool;
  content : jsstring
}.

Definition GET (u : jsstring) : Request := {| method := js "GET"; url := u |}.

(** A cache: the stored responses by URL, oldest first. *)
Definition Cache := list (jsstring * Response).

(** [caches]: the caches by name, oldest first. *)
Definition CacheStorage := list (jsstring * Cache).

Record State := {
  caches : CacheStorage;
  network : Request -> option Response;   (* [None]: the request fails *)
  net_log : list Request;
  console : list jsstring
}.

Definition set_caches (c : CacheStorage) (s : State) : State :=
  {| caches := c; network := network s; net_log := net_log s;
     console := console s |}.

Definition CACHE_NAME : jsstring := js "kosuge-point-v1".

Definition urlsToCache : list jsstring :=
  [ js "./"; js "index.html"; js "app.js"; js "manifest.json"; js "sw.js";
    js "icons/icon-192x192.png"; js "icons/icon-512x512.png" ].

(** [cache.match(request)]: only a [GET] request matches. *)
Fixpoint Cache_find (u : jsstring) (c : Cache) : option Response :=
  match c with
  | [] => None
  | (u', r) :: rest => if jsstring_eqb u u' then Some r else Cache_find u rest
  end.

Definition Cache_match (request : Request) (c : Cache) : option Response :=
  if jsstring_eqb (method request) (js "GET") then Cache_find (url request) c
  else None.

(** [caches.match(request)] on the storage: the first cache, in the
    order of creation, that has a match. *)
Fixpoint CacheStorage_match (request : Request) (cs : CacheStorage)
  : option Response :=
  match cs with
  | [] => None
  | (_, c) :: rest =>
      match Cache_match request c with
      | Some r => Some r
      | None => CacheStorage_match request rest
      end
  end.

Definition caches_match (request : Request) : M State (option Response) :=
  gets (fun s => CacheStorage_match request (caches s)).

Definition has_cache (name : jsstring) (cs : CacheStorage) : bool :=
  existsb (fun nc => jsstring_eqb name (fst nc)) cs.

(** [caches.open(name)]: a cache that does not exist is created. *)
Definition caches_open (name : jsstring) : M State unit :=
  modify (fun s =>
    if has_cache name (caches s) then s
    else set_caches (caches s ++ [(name, [])]) s).

(** [fetch(request)] from the worker. *)
Definition fetch (request : Request) : M State Response :=
  fun s =>
    let s1 := {| caches := caches s; network := network s;
                 net_log := net_log s ++ [request]; console := console s |} in
    match network s request with
    | Some r => (Return r, s1)
    | None => (Throw (VError (js "TypeError") (js "Failed to fetch")), s1)
    end.

Fixpoint fetch_all (urls : list jsstring) : M State (list (jsstring * Response)) :=
  match urls with
  | [] => ret []
  | u :: rest =>
      r ← fetch (GET u);
      (if ok r then ret tt
       else throw (VError (js "TypeError") (js "bad response status")));;
      rs ← fetch_all rest;
      ret ((u, r) :: rs)
  end.

Definition Cache_put (u : jsstring) (r : Response) (c : Cache) : Cache :=
  List.filter (fun e => negb (jsstring_eqb u (fst e))) c ++ [(u, r)].

Definition Cache_putAll (rs : list (jsstring * Response)) (c : Cache) : Cache :=
  fold_left (fun acc e => Cache_put (fst e) (snd e) acc) rs c.

(** [cache.addAll(urls)] on the cache [name]: every resource is fetched,
    and the responses are stored only when all of them came back [ok]. *)
Definition Cache_addAll (name : jsstring) (urls : list jsstring) : M State unit :=
  rs ← fetch_all urls;
  modify (fun s =>
    set_caches
      (map (fun nc => if jsstring_eqb name (fst nc)
                      then (fst nc, Cache_putAll rs (snd nc)) else nc)
           (caches s)) s).

Definition console_log (msg : jsstring) : M State unit :=
  modify (fun s => {| caches := caches s; network := network s;
                      net_log := net_log s; console := console s ++ [msg] |}).

(** The [install] listener. *)
Definition oninstall : M State unit :=
  caches_open CACHE_NAME;;
  console_log (js "Opened cache");;
  Cache_addAll CACHE_NAME urlsToCache.

(** The [fetch] listener: the promise handed to [event.respondWith]. *)
Definition onfetch (request : Request) : M State Response :=
  response ← caches_match request;
  match response with
  | Some r => ret r
  | None => fetch request
  end.

(** [caches.delete(name)] *)
Definition caches_delete (name : jsstring) : M State unit :=
  modify (fun s =>
    set_caches (List.filter (fun nc => negb (jsstring_eqb name (fst nc))) (caches s)) s).

Fixpoint for_each {A} (f : A -> M State unit) (l : list A) : M State unit :=
  match l with
  | [] => ret tt
  | x :: rest => f x;; for_each f rest
  end.

(** The [activate] listener. *)
Definition onactivate : M State unit :=
  let cacheWhitelist := [CACHE_NAME] in
  cacheNames ← gets (fun s => map fst (caches s));
  for_each (fun cacheName =>
              if existsb (jsstring_eqb cacheName) cacheWhitelist then ret tt
              else caches_delete cacheName)
           cacheNames.

(** A copy of the requested resource is in the caches. *)
Definition cached (request : Request) (r : Response) (cs : CacheStorage) : Prop :=
  method request = js "GET" ∧
  ∃ name c, In (name, c) cs ∧ In (url request, r) c.

End SW.

(* ===================================================================== *)
(** ** Sample states *)
(* ===================================================================== *)

Definition sample_settings : Settings :=
  {| appsScriptUrl := VStr (js "https://script.example/macros/s/AK/exec");
     storeId := VStr (js "store-01");
     pointValue := VNum (Num 5) |}.

Definition blank_page (s : Settings) : Page :=
  {| settings := s; deviceId := [];
     scanInput_value := []; currentStatus := (TxtBlank, ClsNone);
     offlineQueueCount := None; lastSyncTimeSpan := None;
     syncDataButton_disabled := false; scanResult := ScanResultEmpty |}.

(** A device that has never run the application. *)
Definition fresh_world (s : Settings) (e : Env) : World :=
  {| device := {| localStorage := ∅; indexedDB := None |};
     page := blank_page s;
     env := e;
     trace := {| net_log := []; console := []; dialogs := [];
                deleteDatabase_log := [] |} |}.

Definition quiet_env : Env :=
  {| net_script := []; idb_script := []; clock := [1700000000000; 1700000060000];
     rng := [1%N; 2%N]; confirm_script := [true] |}.

Definition run {A} (m : M World A) (w : World) : World := snd (m w).

(** A loaded page with settings saved, after the scan of two cards. *)
Definition two_scans (e : Env) : World :=
  run (submitScan (js "98765432109876"))
    (run (submitScan (js " 12345678901234 "))
       (run getOrCreate (fresh_world sample_settings e))).

Definition reply_ok : FetchOutcome :=
  NetResponse true (Some (VObj [(js "status", VNum (Num 200));
                                (js "message", VStr (js "ok"))])).

Definition reply_rejected : FetchOutcome :=
  NetResponse true (Some (VObj [(js "status", VNum (Num 400));
                                (js "message", VStr (js "unknown store"))])).

Definition env_with (net : list FetchOutcome) (idb : list IdbOutcome) : Env :=
  {| net_script := net; idb_script := idb;
     clock := [1700000000000; 1700000060000; 1700000120000];
     rng := [1%N; 2%N]; confirm_script := [true] |}.

Definition QuotaExceeded : IdbOutcome :=
  IdbRequestError (js "QuotaExceededError") (js "The quota has been exceeded.").

(* ===================================================================== *)
(** ** Notions used in the statements *)
(* ===================================================================== *)

(** A failed submission is one of the two failures. *)
Definition is_failure (out : SyncOutcome) : Prop :=
  match out with
  | RemoteRejected _ | TransportError _ => True
  | NothingToSync | Success _ => False
  end.

(** The status line that shows an outcome. *)
Definition status_of (out : SyncOutcome) : StatusText :=
  match out with
  | NothingToSync => TxtNothingToSync
  | Success m => TxtSyncSuccess m
  | RemoteRejected m => TxtSyncFailed m
  | TransportError m => TxtSyncError m
  end.

Definition ascii_digit (c : code_unit) : Prop := (0x30 <= c <= 0x39)%N.

(** Exactly 14 characters, all ASCII decimal digits. *)
Definition fourteen_digits (s : jsstring) : Prop :=
  length s = 14%nat /\ Forall ascii_digit s.

(** What [getOrCreate] returns: the stored identifier when there is one
    that is not empty, a new UUID otherwise. *)
Definition identity_of (w : World) : jsstring :=
  match persistedDeviceId w with
  | Some s => if truthy (VStr s) then s else uuid_v4 (hd 0%N (rng (env w)))
  | None => uuid_v4 (hd 0%N (rng (env w)))
  end.

(** What a device does between two resets. *)
Inductive Action :=
| Load                      (* the page is loaded: lines 31-34 run *)
| Scan (rawInput : jsstring)
| Sync.

Definition act (a : Action) : M World unit :=
  match a with
  | Load => getOrCreate;; ret tt
  | Scan rawInput => submitScan rawInput
  | Sync => syncData
  end.

(** A session without reset: page loads, scans and syncs, each run to its
    end, whether it returns or throws. *)
Definition run_all (l : list Action) (w : World) : World :=
  fold_left (fun w a => run (act a) w) l w.

(* --------------------------------------------------------------------- *)
(** *** States for the examples *)

(** A loaded page on a device that has never run the application. *)
Definition loaded_world (e : Env) : World :=
  run getOrCreate (fresh_world sample_settings e).

(** The same with no settings saved. *)
Definition unconfigured_world : World :=
  run getOrCreate (fresh_world empty_settings quiet_env).

(** Two cards queued; the remote end will decline the batch. *)
Definition rejected_world : World := two_scans (env_with [reply_rejected] []).

(** Two cards queued; the remote end will accept the batch. *)
Definition accepted_world : World := two_scans (env_with [reply_ok] []).

(** Two cards queued; the remote end will accept the batch, and the sixth
    operation on the database from the start, the clearing of the queue,
    will fail. *)
Definition clear_fails_world : World :=
  two_scans (env_with [reply_ok] [IdbOk; IdbOk; IdbOk; IdbOk; IdbOk; QuotaExceeded]).

(** Two cards queued; the remote end will accept the batch, and the second
    request will not get through. *)
Definition notification_fails_world : World :=
  two_scans (env_with [reply_ok; NetReject (js "TypeError") (js "Load failed")] []).

(** One card queued; the next [add] will fail. *)
Definition storage_fault_world : World :=
  run (submitScan (js "12345678901234"))
    (loaded_world (env_with [] [IdbOk; IdbOk; QuotaExceeded])).

(** No card queued; the transaction of the next [add] will abort as it
    commits. *)
Definition commit_aborts_world : World :=
  loaded_world (env_with [] [IdbCommitAborted]).

(** No card queued; the database cannot be opened. *)
Definition empty_unreadable_world : World :=
  loaded_world (env_with [] [IdbOpenError]).

(** Two cards queued; the remote end will accept the batch, and the
    transaction that clears the queue will abort as it commits. *)
Definition clear_aborts_world : World :=
  two_scans (env_with [reply_ok] [IdbOk; IdbOk; IdbOk; IdbOk; IdbOk; IdbCommitAborted]).



Definition sample_session : list Action :=
  [Scan (js "12345678901234"); Load; Scan (js "98765432109876"); Sync].

(** A network that has every resource. *)
Definition sw_network (request : SW.Request) : option SW.Response :=
  Some {| SW.ok := true; SW.content := SW.url request |}.

Definition sw_fresh : SW.State :=
  {| SW.caches := []; SW.network := sw_network; SW.net_log := []; SW.console := [] |}.

(** The worker after a successful [install]. *)
Definition sw_installed : SW.State := snd (SW.oninstall sw_fresh).

(* ===================================================================== *)
(** ** Invariants of a session *)
(* ===================================================================== *)

(** [m] keeps [P]: from a state where [P] holds, the state [m] ends in,
    whether it returns or throws, is a state where [P] holds. *)
Definition preserves {A} (P : World -> Prop) (m : M World A) : Prop :=
  forall w, P w -> P (snd (m w)).

(** The key generator is at least 1 and above every key in the store, and
    the records are in strictly ascending key order. *)
Definition ordered_keys (st : ObjectStore) : Prop :=
  (1 <= keyGenerator st)%N
  /\ Forall (fun e => (1 <= entry_id e < keyGenerator st)%N) (records st)
  /\ StronglySorted N.lt (map entry_id (records st)).

Definition keys_in_order (w : World) : Prop := ordered_keys (objectStore w).

(** Every queued record holds a member number of 14 ASCII digits. *)
Definition members_valid (w : World) : Prop :=
  Forall (fun e => fourteen_digits (memberId e)) (queue w).

(** The storage will work from now on. *)
Definition storage_works (w : World) : Prop :=
  Forall (fun o => o = IdbOk) (idb_script (env w)).

(* ===================================================================== *)
(** ** The settings form ([saveSettings], lines 114-127) *)
(* ===================================================================== *)

(** [s.endsWith(suffix)] *)
Definition endsWith (s suffix : jsstring) : bool :=
  (length suffix <=? length s)%nat
  && jsstring_eqb (drop (length s - length suffix) s) suffix.

(** The number written by the decimal digits at the head of [s], after
    the digits already read. *)
Fixpoint digits_value (acc : Z) (s : jsstring) : Z :=
  match s with
  | c :: r =>
      if is_digit c then digits_value (acc * 10 + (Z.of_N c - 0x30)) r else acc
  | [] => acc
  end.

Definition starts_with_digit (s : jsstring) : bool :=
  match s with
  | c :: _ => is_digit c
  | [] => false
  end.

(** [parseInt(s, 10)]: leading white space is skipped, one sign is read,
    then the decimal digits up to the first other character; with no
    digit the result is [NaN]. Beyond 2^53 the browser rounds the number
    to the nearest double, which has the same sign. *)
Definition parseInt10 (s : jsstring) : JsNum :=
  match trimStart s with
  | 0x2D%N :: r => if starts_with_digit r then Num (- digits_value 0 r) else NaN
  | 0x2B%N :: r => if starts_with_digit r then Num (digits_value 0 r) else NaN
  | r => if starts_with_digit r then Num (digits_value 0 r) else NaN
  end.

(** [isNaN(n)] *)
Definition isNaN (n : JsNum) : bool :=
  match n with
  | NaN => true
  | Num _ => false
  end.

(** [n <= 0] *)
Definition le_zero (n : JsNum) : bool :=
  match n with
  | NaN => false
  | Num z => z <=? 0
  end.

(** The three fields of the settings form. *)
Record SettingsForm := {
  appsScriptUrlInput_value : jsstring;
  storeIdInput_value : jsstring;
  pointValueInput_value : jsstring
}.

(** The two alerts of [saveSettings]. *)
Inductive FormAlert :=
| AlertSettingsRefused   (* 'Apps Script URLは「/exec」で終わり、...正しく入力してください。' *)
| AlertSettingsSaved.    (* '設定を保存しました！' *)

(** The page with its settings form. *)
Record Shell := {
  world : World;
  form : SettingsForm;
  form_alerts : list FormAlert
}.

Definition set_world (w : World) (s : Shell) : Shell :=
  {| world := w; form := form s; form_alerts := form_alerts s |}.

(** A computation on the device and the page, run from the form. *)
Definition in_world {A} (m : M World A) : M Shell A :=
  fun s => let (r, w) := m (world s) in (r, set_world w s).

Definition form_alert (a : FormAlert) : M Shell unit :=
  modify (fun s => {| world := world s; form := form s;
                      form_alerts := form_alerts s ++ [a] |}).

Definition set_settings (v : Settings) (p : Page) : Page :=
  {| settings := v; deviceId := deviceId p;
     scanInput_value := scanInput_value p; currentStatus := currentStatus p;
     offlineQueueCount := offlineQueueCount p;
     lastSyncTimeSpan := lastSyncTimeSpan p;
     syncDataButton_disabled := syncDataButton_disabled p;
     scanResult := scanResult p |}.

(** [settings.k = v] for the three keys. *)
Definition assign_appsScriptUrl (v : JsVal) : M World unit :=
  modify (with_page (fun p =>
    set_settings {| appsScriptUrl := v; storeId := storeId (settings p);
                    pointValue := pointValue (settings p) |} p)).
Definition assign_storeId (v : JsVal) : M World unit :=
  modify (with_page (fun p =>
    set_settings {| appsScriptUrl := appsScriptUrl (settings p); storeId := v;
                    pointValue := pointValue (settings p) |} p)).
Definition assign_pointValue (v : JsVal) : M World unit :=
  modify (with_page (fun p =>
    set_settings {| appsScriptUrl := appsScriptUrl (settings p);
                    storeId := storeId (settings p); pointValue := v |} p)).

Section SaveSettings.

(** [JSON.stringify] on the settings object: what it writes is left open,
    none of the properties below depends on it. *)
Variable JSON_stringify : Settings -> jsstring.

(** [saveSettings()]; the fields tested are the ones just assigned. *)
Definition saveSettings : M Shell unit :=
  f ← gets form;
  let url := trim (appsScriptUrlInput_value f) in
  let store := trim (storeIdInput_value f) in
  let points := parseInt10 (trim (pointValueInput_value f)) in
  in_world (assign_appsScriptUrl (VStr url));;
  in_world (assign_storeId (VStr store));;
  in_world (assign_pointValue (VNum points));;
  if negb (truthy (VStr url)) || negb (endsWith url (js "/exec"))
     || negb (truthy (VStr store)) || isNaN points || le_zero points
  then
    form_alert AlertSettingsRefused
  else
    s ← gets (fun sh => settings (page (world sh)));
    in_world (localStorage_setItem SETTINGS_KEY (JSON_stringify s));;
    form_alert AlertSettingsSaved.

End SaveSettings.

(** What the form asks of its three fields, once trimmed: an address that
    ends with [/exec], a store identifier that is not empty, and a point
    value that reads as an integer above zero. *)
Definition form_valid (f : SettingsForm) : Prop :=
  (exists prefix, trim (appsScriptUrlInput_value f) = prefix ++ js "/exec")
  /\ trim (storeIdInput_value f) <> []
  /\ exists z, parseInt10 (trim (pointValueInput_value f)) = Num z /\ 0 < z.

(** The settings that [saveSettings] assigns. *)
Definition settings_of_form (f : SettingsForm) : Settings :=
  {| appsScriptUrl := VStr (trim (appsScriptUrlInput_value f));
     storeId := VStr (trim (storeIdInput_value f));
     pointValue := VNum (parseInt10 (trim (pointValueInput_value f))) |}.

(** A page with its form filled in. *)
Definition shell_of (w : World) (f : SettingsForm) : Shell :=
  {| world := w; form := f; form_alerts := [] |}.

(** A form with an address that does not end with [/exec] and a negative
    point value. *)
Definition refused_form : SettingsForm :=
  {| appsScriptUrlInput_value := js " https://script.example/macros/s/AK/dev ";
     storeIdInput_value := js "store-01";
     pointValueInput_value := js "-3" |}.

(** A form that passes, with text after the digits of the point value. *)
Definition accepted_form : SettingsForm :=
  {| appsScriptUrlInput_value := js "https://script.example/macros/s/AK/exec";
     storeIdInput_value := js " store-01 ";
     pointValueInput_value := js "5 points" |}.

(** One card queued after a failed refresh of the counter. *)
Definition count_fails_world : World :=
  loaded_world (env_with [] [IdbOk; IdbOpenError]).

(** Two cards queued; the queue cannot be read. *)
Definition unreadable_world : World :=
  two_scans (env_with [reply_ok] [IdbOk; IdbOk; IdbOk; IdbOk; IdbOpenError]).

(** Two cards queued; the remote end declines the batch, then accepts it. *)
Definition retry_world : World := two_scans (env_with [reply_rejected; reply_ok] []).

(** The worker with another network behind it. *)
Definition sw_set_network (n : SW.Request -> option SW.Response) (s : SW.State)
  : SW.State :=
  {| SW.caches := SW.caches s; SW.network := n;
     SW.net_log := SW.net_log s; SW.console := SW.console s |}.

(** The network has the resource and answers with an [ok] response. *)
Definition sw_available (s : SW.State) (u : jsstring) : Prop :=
  exists r, SW.network s (SW.GET u) = Some r /\ SW.ok r = true.

(** No network at all. *)
Definition sw_no_network (request : SW.Request) : option SW.Response := None.

(** A network that has every resource but the manifest. *)
Definition sw_network_no_manifest (request : SW.Request) : option SW.Response :=
  if jsstring_eqb (SW.url request) (js "manifest.json") then None
  else Some {| SW.ok := true; SW.content := SW.url request |}.

(** A worker that finds the caches of two versions. *)
Definition sw_upgraded : SW.State :=
  {| SW.caches := [(js "kosuge-point-v0", [(js "index.html", {| SW.ok := true; SW.content := js "old" |})]);
                   (SW.CACHE_NAME, [(js "app.js", {| SW.ok := true; SW.content := js "new" |})]);
                   (js "other", [])];
     SW.network := sw_network; SW.net_log := []; SW.console := [] |}.

(** The caches after [caches.open(CACHE_NAME)]. *)
Definition opened (cs : SW.CacheStorage) : SW.CacheStorage :=
  if SW.has_cache SW.CACHE_NAME cs then cs else cs ++ [(SW.CACHE_NAME, [])].

(* ===================================================================== *)
(** ** Running the embedding in proofs *)
(* ===================================================================== *)

#[global] Arguments js : simpl never.
#[global] Arguments uuid_v4 : simpl never.
#[global] Arguments trim : simpl never.
#[global] Arguments valid_memberId : simpl never.
#[global] Arguments truthy : simpl never.
#[global] Arguments strict_eq_200 : simpl never.
#[global] Arguments lookup_field : simpl never.
#[global] Arguments jsstring_eqb : simpl never.

(** Unfold the program down to the state it computes. *)
Ltac unfold_app :=
  unfold syncData, syncData_try, syncData_catch, syncData_finally,
    submitScan, scanInput_keypress, updateQueueCount, addEntry,
    getAllEntries, clearEntries, getOrCreate, resetDevice,
    resetDevice_confirmed, resetDevice_persist, displayScanResult,
    set_status, detached,
    idb_next, openDB, store_add, store_getAll, store_clear,
    localStorage_getItem, localStorage_setItem, localStorage_clear,
    indexedDB_deleteDatabase, new_Date, crypto_randomUUID, alert, confirm,
    console_log, fetch, Response_json, get_prop, batch_of,
    try_catch, try_finally, mbind, M_bind, mret, M_ret, bind, ret, gets,
    modify, throw in *.

Ltac unfold_state :=
  unfold run, idb_fate, fetch_fate, queue, objectStore, lastSyncMarker,
    persistedDeviceId, sync_outcome, scan_outcome,
    with_device, with_page, with_env, with_trace in *.

Ltac run_app := unfold_app; unfold_state; cbn in *.

(** Close the description of a failed run once it has been computed. *)
Ltac failed_run :=
  split; [reflexivity |];
  split; [eexists; split; [reflexivity | split; [exact I | reflexivity]] |];
  split; reflexivity.

Lemma eqb_Enter : jsstring_eqb (js "Enter") (js "Enter") = true.
Proof. reflexivity. Qed.

Lemma eqb_message : jsstring_eqb (js "message") (js "message") = true.
Proof. reflexivity. Qed.

Lemma eqb_status_message : jsstring_eqb (js "status") (js "message") = false.
Proof. reflexivity. Qed.

Lemma eqb_status_name : jsstring_eqb (js "status") (js "name") = false.
Proof. reflexivity. Qed.


(* ===================================================================== *)
(** ** The embedding at work *)
(* ===================================================================== *)

(** [trim] removes the white space of ECMAScript, the ideographic space
    and the line ends included, and nothing inside the string. *)
Example trim_example :
  trim ([0x3000; 0x20; 0x31; 0x20; 0x32; 0x0D; 0x0A; 0xA0])%N = [0x31; 0x20; 0x32]%N.
Proof. reflexivity. Qed.

Example valid_memberId_examples :
  valid_memberId (js "12345678901234") = true
  /\ valid_memberId (js "1234567890123") = false
  /\ valid_memberId (js "123456789012345") = false
  /\ valid_memberId (js "1234567890123a") = false
  /\ valid_memberId (replicate 14 0xFF11%N) = false.
Proof. repeat split. Qed.

(** The end-to-end scenario of the specification: one card scanned with
    valid settings, then a sync answered by [{status: 200, message: "ok"}]. *)
Example end_to_end :
  let w1 := run (submitScan (js "12345678901234")) (loaded_world (env_with [reply_ok] [])) in
  length (queue w1) = 1%nat
  /\ offlineQueueCount (page w1) = Some 1%nat
  /\ sync_outcome (syncData w1) = Some (Success (VStr (js "ok")))
  /\ length (queue (run syncData w1)) = 0%nat
  /\ offlineQueueCount (page (run syncData w1)) = Some 0%nat
  /\ lastSyncMarker (run syncData w1) = Some (js "1700000060000")
  /\ syncDataButton_disabled (page (run syncData w1)) = false.
Proof. vm_compute. repeat split. Qed.

(* ===================================================================== *)
(** ** Synchronisation *)
(* ===================================================================== *)

(** Every answer of the remote end is a confirmed success or has its
    failure outcome, never both. *)
Lemma remote_success_or_failure (o : FetchOutcome) :
  remote_success o = None <-> exists out, failure_outcome o = Some out /\ is_failure out.
Proof.
  assert (yes : forall out, is_failure out ->
            None = @None JsVal <-> exists out', Some out = Some out' /\ is_failure out').
  { intros out H. split; [intros _; exists out; auto | reflexivity]. }
  destruct o as [n m | k [v|]]; cbn; try (apply yes; exact I); [| destruct k; apply yes; exact I].
  destruct v; try (destruct k; apply yes; exact I).
  destruct k; cbn; [| apply yes; exact I].
  destruct (strict_eq_200 (lookup_field (js "status") fields)); cbn.
  - split; [discriminate | intros (out & H & _); discriminate].
  - apply yes; exact I.
Qed.

(** The outcome of a run that returned is read off the status line. *)
Lemma sync_outcome_of_status (w : World) (t : StatusText) (c : ClassName) :
  fst (syncData w) = Return tt ->
  currentStatus (page (run syncData w)) = (t, c) ->
  sync_outcome (syncData w) =
    match t with
    | TxtNothingToSync => Some NothingToSync
    | TxtSyncSuccess m => Some (Success m)
    | TxtSyncFailed m => Some (RemoteRejected m)
    | TxtSyncError m => Some (TransportError m)
    | _ => None
    end.
Proof.
  unfold run, sync_outcome. destruct (syncData w) as [r w']. cbn.
  intros -> ->. reflexivity.
Qed.

(** The run of [syncData] on an empty queue. *)
Lemma syncData_nothing_to_sync (w : World) :
  queue w = [] ->
  idb_rejects (idb_fate 0 w) = false ->
  fst (syncData w) = Return tt
  /\ currentStatus (page (run syncData w)) = (TxtNothingToSync, ClsInfo)
  /\ syncDataButton_disabled (page (run syncData w)) = false
  /\ trace (run syncData w) = trace w
  /\ net_script (env (run syncData w)) = net_script (env w)
  /\ queue (run syncData w) = []
  /\ localStorage (device (run syncData w)) = localStorage (device w).
Proof.
  intros Hq Hidb. unfold run. remember (syncData w) as R eqn:E.
  run_app.
  destruct (hd IdbOk (idb_script (env w))); try discriminate Hidb; cbn in E;
    (destruct (indexedDB (device w)) as [st|] eqn:Hdb; cbn in E;
     [ rewrite Hdb in E; cbn in E; rewrite Hq in E; cbn in E;
       subst R; cbn; rewrite Hdb; auto 10
     | subst R; cbn; auto 10 ]).
Qed.

(** C4, as stated, fails: with no card queued and a database that cannot
    be opened, the sync does not end with [NothingToSync]: the rejection
    of [getAllEntries] leaves [syncData] before its [try] block, no
    outcome is reported, the status line stays on "syncing" and the sync
    button stays disabled. No request has left and the queue and the
    Last-Sync Marker are as they were. *)
Lemma sync_empty_queue_unreadable_counterexample :
  queue empty_unreadable_world = []
  /\ sync_outcome (syncData empty_unreadable_world) = None
  /\ sync_outcome (syncData empty_unreadable_world) <> Some NothingToSync
  /\ fst (syncData empty_unreadable_world) = Throw (VStr (js "IndexedDB error"))
  /\ currentStatus (page (run syncData empty_unreadable_world)) = (TxtSyncing, ClsInfo)
  /\ syncDataButton_disabled (page (run syncData empty_unreadable_world)) = true
  /\ net_log (trace (run syncData empty_unreadable_world))
     = net_log (trace empty_unreadable_world)
  /\ lastSyncMarker (run syncData empty_unreadable_world)
     = lastSyncMarker empty_unreadable_world.
Proof. repeat split; try reflexivity. vm_compute. discriminate. Qed.

(** C4 (amended): a sync started while the queue is empty and can be read
    (the read of the queue goes through and lists no record) ends at once
    with [NothingToSync]: no request leaves the device, no network answer
    is consumed, the queue is still empty and [localStorage], hence the
    Last-Sync Marker, is as it was. *)
Theorem sync_empty_queue_nothing_to_sync (w : World) :
  queue w = [] ->
  idb_rejects (idb_fate 0 w) = false ->
  sync_outcome (syncData w) = Some NothingToSync
  /\ net_log (trace (run syncData w)) = net_log (trace w)
  /\ net_script (env (run syncData w)) = net_script (env w)
  /\ queue (run syncData w) = queue w
  /\ lastSyncMarker (run syncData w) = lastSyncMarker w.
Proof.
  intros Hq Hidb.
  destruct (syncData_nothing_to_sync w Hq Hidb)
    as (Hret & Hst & _ & Htrace & Hnet & Hqueue & Hls).
  split; [now rewrite (sync_outcome_of_status w _ _ Hret Hst) |].
  split; [now rewrite Htrace |].
  split; [exact Hnet |].
  split; [now rewrite Hq, Hqueue |].
  unfold lastSyncMarker. now rewrite Hls.
Qed.

Lemma sync_empty_queue_nothing_to_sync_witness :
  sync_outcome (syncData (loaded_world quiet_env)) = Some NothingToSync
  /\ net_log (trace (run syncData (loaded_world quiet_env)))
     = net_log (trace (loaded_world quiet_env))
  /\ net_script (env (run syncData (loaded_world quiet_env)))
     = net_script (env (loaded_world quiet_env))
  /\ queue (run syncData (loaded_world quiet_env)) = queue (loaded_world quiet_env)
  /\ lastSyncMarker (run syncData (loaded_world quiet_env))
     = lastSyncMarker (loaded_world quiet_env).
Proof.
  apply (sync_empty_queue_nothing_to_sync (loaded_world quiet_env)); reflexivity.
Defined.

(** The run of [syncData] when the submission fails. *)
Lemma syncData_failed (w : World) :
  queue w <> [] ->
  idb_fate 0 w = IdbOk ->
  remote_success (fetch_fate 0 w) = None ->
  fst (syncData w) = Return tt
  /\ (exists out, failure_outcome (fetch_fate 0 w) = Some out
                  /\ is_failure out
                  /\ fst (currentStatus (page (run syncData w))) = status_of out)
  /\ device (run syncData w) = device w
  /\ net_log (trace (run syncData w)) =
       net_log (trace w)
       ++ [{| req_url := appsScriptUrl (settings (page w));
              req_body := batch_of (settings (page w)) (queue w) (deviceId (page w)) |}].
Proof.
  intros Hq Hidb Hfail.
  unfold run. remember (syncData w) as R eqn:E.
  run_app. rewrite Hidb in E. cbn in E.
  destruct (indexedDB (device w)) as [st|] eqn:Hdb; [| contradiction].
  cbn in *. rewrite Hdb in E. cbn in E.
  destruct (records st) as [|e0 es] eqn:Hrec; [contradiction |].
  cbn in E.
  destruct (hd OFFLINE (net_script (env w))) as [n m | k [v|]]; cbn in *.
  - (* the request does not come back *)
    rewrite eqb_message in E. cbn in E. subst R. cbn. failed_run.
  - (* a body came back *)
    destruct v, k; cbn in *;
      rewrite ?eqb_status_message, ?eqb_status_name, ?eqb_message in E; cbn in E;
      try (subst R; cbn; failed_run).
    destruct (strict_eq_200 (lookup_field (js "status") fields)); [discriminate |].
    cbn in E. subst R. cbn. failed_run.
  - (* the body is not JSON *)
    destruct k; cbn in *; rewrite eqb_message in E; cbn in E; subst R; cbn; failed_run.
Qed.

(** The run of [syncData] when the remote end accepts the batch and the
    queue can be cleared, whatever becomes of the refresh of the counter
    and of the second request. *)
Lemma syncData_accepted (w : World) (msg : JsVal) :
  queue w <> [] ->
  idb_fate 0 w = IdbOk ->
  remote_success (fetch_fate 0 w) = Some msg ->
  idb_fate 1 w = IdbOk ->
  fst (syncData w) = Return tt
  /\ currentStatus (page (run syncData w)) = (TxtSyncSuccess msg, ClsSuccess)
  /\ queue (run syncData w) = []
  /\ localStorage (device (run syncData w)) =
       <[LAST_SYNC_KEY := js (pretty (hd 0 (clock (env w))))]> (localStorage (device w))
  /\ net_log (trace (run syncData w)) =
       net_log (trace w)
       ++ [{| req_url := appsScriptUrl (settings (page w));
              req_body := batch_of (settings (page w)) (queue w) (deviceId (page w)) |};
           {| req_url := appsScriptUrl (settings (page w));
              req_body := UpdateLastSyncTime (deviceId (page w)) |}]
  /\ last (console (trace (run syncData w))) =
       Some match fetch_fate 1 w with
            | NetReject name message => WarnLastSyncFailed (VError name message)
            | NetResponse _ _ => LogLastSyncUpdated
            end.
Proof.
  intros Hq Hidb Hok Hclear.
  unfold run. remember (syncData w) as R eqn:E.
  run_app. rewrite Hidb in E. cbn in E.
  destruct (indexedDB (device w)) as [st|] eqn:Hdb; [| contradiction].
  cbn in *. rewrite Hdb in E. cbn in E.
  destruct (records st) as [|e0 es] eqn:Hrec; [contradiction |].
  cbn in E.
  destruct (hd OFFLINE (net_script (env w))) as [n m | [|] [[| | | | | |fields|]|]];
    try discriminate.
  cbn in *.
  destruct (strict_eq_200 (lookup_field (js "status") fields)); [| discriminate].
  injection Hok as <-.
  cbn in E. rewrite Hclear in E. cbn in E. rewrite Hdb in E. cbn in E.
  (* the refresh of the counter, then the second request *)
  destruct (hd IdbOk (tail (tail (idb_script (env w))))) as [| |n m|];
    cbn in E; rewrite ?Hdb in E; cbn in E;
    destruct (hd OFFLINE (tail (net_script (env w)))) as [n' m'|k b];
    cbn in E; subst R; cbn; repeat split;
    first [ reflexivity
          | rewrite <- app_assoc; reflexivity
          | rewrite ?app_assoc, last_snoc; reflexivity ].
Qed.

(** The run of [syncData] when the remote end accepts the batch and the
    queue cannot be cleared. *)
Lemma syncData_clear_failed (w : World) (msg : JsVal) :
  queue w <> [] ->
  idb_fate 0 w = IdbOk ->
  remote_success (fetch_fate 0 w) = Some msg ->
  idb_rejects (idb_fate 1 w) = true ->
  fst (syncData w) = Return tt
  /\ currentStatus (page (run syncData w)) =
       (TxtSyncError match idb_fate 1 w with
                     | IdbRequestError _ message => VStr message
                     | _ => VUndefined
                     end, ClsError)
  /\ device (run syncData w) = device w
  /\ settings (page (run syncData w)) = settings (page w)
  /\ deviceId (page (run syncData w)) = deviceId (page w)
  /\ idb_script (env (run syncData w)) = tl (tl (idb_script (env w)))
  /\ net_script (env (run syncData w)) = tl (net_script (env w))
  /\ net_log (trace (run syncData w)) =
       net_log (trace w)
       ++ [{| req_url := appsScriptUrl (settings (page w));
              req_body := batch_of (settings (page w)) (queue w) (deviceId (page w)) |}].
Proof.
  intros Hq Hidb Hok Hclear.
  unfold run. remember (syncData w) as R eqn:E.
  run_app. rewrite Hidb in E. cbn in E.
  destruct (indexedDB (device w)) as [st|] eqn:Hdb; [| contradiction].
  cbn in *. rewrite Hdb in E. cbn in E.
  destruct (records st) as [|e0 es] eqn:Hrec; [contradiction |].
  cbn in E.
  destruct (hd OFFLINE (net_script (env w))) as [n m | [|] [[| | | | | |fields|]|]];
    try discriminate.
  cbn in *.
  destruct (strict_eq_200 (lookup_field (js "status") fields)); [| discriminate].
  cbn in E.
  destruct (hd IdbOk (tail (idb_script (env w)))) as [| |n m|];
    try discriminate Hclear;
    cbn in E; rewrite ?eqb_message in E; cbn in E; subst R; cbn; rewrite ?Hdb;
    auto 10.
Qed.

(** The run of [syncData] when the remote end accepts the batch and the
    transaction that clears the queue aborts as it commits: [clearEntries]
    has resolved, and the sync goes on as if the queue were empty. *)
Lemma syncData_clear_aborted (w : World) (msg : JsVal) :
  queue w <> [] ->
  idb_fate 0 w = IdbOk ->
  remote_success (fetch_fate 0 w) = Some msg ->
  idb_fate 1 w = IdbCommitAborted ->
  fst (syncData w) = Return tt
  /\ currentStatus (page (run syncData w)) = (TxtSyncSuccess msg, ClsSuccess)
  /\ queue (run syncData w) = queue w
  /\ localStorage (device (run syncData w)) =
       <[LAST_SYNC_KEY := js (pretty (hd 0 (clock (env w))))]> (localStorage (device w))
  /\ net_log (trace (run syncData w)) =
       net_log (trace w)
       ++ [{| req_url := appsScriptUrl (settings (page w));
              req_body := batch_of (settings (page w)) (queue w) (deviceId (page w)) |};
           {| req_url := appsScriptUrl (settings (page w));
              req_body := UpdateLastSyncTime (deviceId (page w)) |}].
Proof.
  intros Hq Hidb Hok Hclear.
  unfold run. remember (syncData w) as R eqn:E.
  run_app. rewrite Hidb in E. cbn in E.
  destruct (indexedDB (device w)) as [st|] eqn:Hdb; [| contradiction].
  cbn in *. rewrite Hdb in E. cbn in E.
  destruct (records st) as [|e0 es] eqn:Hrec; [contradiction |].
  cbn in E.
  destruct (hd OFFLINE (net_script (env w))) as [n m | [|] [[| | | | | |fields|]|]];
    try discriminate.
  cbn in *.
  destruct (strict_eq_200 (lookup_field (js "status") fields)); [| discriminate].
  injection Hok as <-.
  cbn in E. rewrite Hclear in E. cbn in E. rewrite ?Hdb in E. cbn in E.
  destruct (hd IdbOk (tail (tail (idb_script (env w))))) as [| |n m|];
    cbn in E; rewrite ?Hdb in E; cbn in E;
    destruct (hd OFFLINE (tail (net_script (env w)))) as [n' m'|k b];
    cbn in E; subst R; cbn; rewrite ?Hdb, ?Hrec; repeat split;
    first [ reflexivity
          | rewrite <- app_assoc; reflexivity
          | rewrite ?app_assoc, last_snoc; reflexivity ].
Qed.

(** Whatever happens next, a sync that finds records in the queue sends
    them all, in order, as its first request. *)
Lemma syncData_submits_queue (w : World) :
  queue w <> [] ->
  idb_fate 0 w = IdbOk ->
  exists more,
    net_log (trace (run syncData w)) =
      net_log (trace w)
      ++ {| req_url := appsScriptUrl (settings (page w));
            req_body := batch_of (settings (page w)) (queue w) (deviceId (page w)) |}
         :: more.
Proof.
  intros Hq Hidb.
  destruct (remote_success (fetch_fate 0 w)) as [msg|] eqn:Hsucc.
  - destruct (idb_fate 1 w) eqn:Hclear.
    + destruct (syncData_accepted w msg Hq Hidb Hsucc Hclear) as (_ & _ & _ & _ & H & _).
      rewrite H. eauto.
    + destruct (syncData_clear_failed w msg Hq Hidb Hsucc) as (_ & _ & _ & _ & _ & _ & _ & H);
        [now rewrite Hclear |]. rewrite H. eauto.
    + destruct (syncData_clear_failed w msg Hq Hidb Hsucc) as (_ & _ & _ & _ & _ & _ & _ & H);
        [now rewrite Hclear |]. rewrite H. eauto.
    + destruct (syncData_clear_aborted w msg Hq Hidb Hsucc Hclear) as (_ & _ & _ & _ & H).
      rewrite H. eauto.
  - destruct (syncData_failed w Hq Hidb Hsucc) as (_ & _ & _ & H).
    rewrite H. eauto.
Qed.


(** C1: when the submission of a queue of N records fails, whether the
    remote end declines it (response not [ok], or [status] other than
    200) or the transport fails (the request does not come back, or the
    body cannot be parsed or read), the sync ends with the failure
    outcome that goes with the answer, one request has left, and the
    device keeps its whole state: the queue holds the same N records in
    the same order. *)
Theorem sync_failure_keeps_queue (w : World) (n : nat) :
  length (queue w) = n ->
  n <> 0%nat ->
  idb_fate 0 w = IdbOk ->
  remote_success (fetch_fate 0 w) = None ->
  (exists out, failure_outcome (fetch_fate 0 w) = Some out
               /\ is_failure out
               /\ sync_outcome (syncData w) = Some out)
  /\ queue (run syncData w) = queue w
  /\ length (queue (run syncData w)) = n
  /\ device (run syncData w) = device w.
Proof.
  intros HN Hpos Hidb Hfail.
  assert (Hq : queue w <> []) by (intros H; rewrite H in HN; cbn in HN; congruence).
  destruct (syncData_failed w Hq Hidb Hfail) as (Hret & (out & Hout & Hfailure & Hst) & Hdev & _).
  assert (Hqueue : queue (run syncData w) = queue w) by (unfold queue; now rewrite Hdev).
  split; [| split; [exact Hqueue | split; [now rewrite Hqueue | exact Hdev]]].
  exists out. split; [exact Hout |]. split; [exact Hfailure |].
  destruct (currentStatus (page (run syncData w))) as [t c] eqn:Hcur.
  rewrite (sync_outcome_of_status w t c Hret Hcur).
  cbn in Hst. subst t. now destruct out.
Qed.

Lemma sync_failure_keeps_queue_witness :
  (exists out, failure_outcome (fetch_fate 0 rejected_world) = Some out
               /\ is_failure out
               /\ sync_outcome (syncData rejected_world) = Some out)
  /\ queue (run syncData rejected_world) = queue rejected_world
  /\ length (queue (run syncData rejected_world)) = 2%nat
  /\ device (run syncData rejected_world) = device rejected_world.
Proof.
  apply (sync_failure_keeps_queue rejected_world 2).
  - reflexivity.
  - discriminate.
  - reflexivity.
  - reflexivity.
Defined.

(** C2, as stated, fails: with two records queued and the answer
    [{status: 200, message: "ok"}] to the batch, a queue that cannot be
    cleared (the [clear] request ends in a quota error) leaves a sync that
    does not report [Success], a queue that is not empty and no Last-Sync
    Marker. *)
Lemma sync_success_without_clear_counterexample :
  queue clear_fails_world <> []
  /\ idb_fate 0 clear_fails_world = IdbOk
  /\ remote_success (fetch_fate 0 clear_fails_world) = Some (VStr (js "ok"))
  /\ sync_outcome (syncData clear_fails_world)
     = Some (TransportError (VStr (js "The quota has been exceeded.")))
  /\ length (queue (run syncData clear_fails_world)) = 2%nat
  /\ lastSyncMarker (run syncData clear_fails_world) = None
  /\ ~ (sync_outcome (syncData clear_fails_world) = Some (Success (VStr (js "ok")))
        /\ length (queue (run syncData clear_fails_world)) = 0%nat
        /\ lastSyncMarker (run syncData clear_fails_world)
           = Some (js (pretty (hd 0 (clock (env clear_fails_world)))))).
Proof.
  repeat split; try (vm_compute; congruence).
  intros (_ & H & _). vm_compute in H. congruence.
Qed.

(** C2 (amended): when the remote end answers the batch of a non-empty
    queue with [ok] and [status] 200 and the queue can then be cleared,
    the sync reports [Success] with the message of the remote end, the
    queue is empty, and the Last-Sync Marker is the reading of the clock
    taken after the clearing, in decimal. *)
Theorem sync_success_clears_queue (w : World) (msg : JsVal) :
  queue w <> [] ->
  idb_fate 0 w = IdbOk ->
  remote_success (fetch_fate 0 w) = Some msg ->
  idb_fate 1 w = IdbOk ->
  sync_outcome (syncData w) = Some (Success msg)
  /\ queue (run syncData w) = []
  /\ length (queue (run syncData w)) = 0%nat
  /\ lastSyncMarker (run syncData w) = Some (js (pretty (hd 0 (clock (env w))))).
Proof.
  intros Hq Hidb Hok Hclear.
  destruct (syncData_accepted w msg Hq Hidb Hok Hclear)
    as (Hret & Hst & Hqueue & Hls & _).
  repeat split.
  - now rewrite (sync_outcome_of_status w _ _ Hret Hst).
  - exact Hqueue.
  - now rewrite Hqueue.
  - unfold lastSyncMarker. rewrite Hls. apply lookup_insert_eq.
Qed.

Lemma sync_success_clears_queue_witness :
  sync_outcome (syncData accepted_world) = Some (Success (VStr (js "ok")))
  /\ queue (run syncData accepted_world) = []
  /\ length (queue (run syncData accepted_world)) = 0%nat
  /\ lastSyncMarker (run syncData accepted_world) = Some (js "1700000120000").
Proof.
  apply (sync_success_clears_queue accepted_world (VStr (js "ok")));
    [discriminate | reflexivity..].
Defined.

(** C8: after the batch has been accepted and the queue cleared, the sync
    sends a second request, [{action: 'updateLastSyncTime', deviceId}],
    to the same address; whatever becomes of it (the request is rejected,
    or any response comes back), the outcome is [Success], the queue is
    empty and the Last-Sync Marker is the one written before the request;
    a rejection leaves a warning on the console and nothing else. *)
Theorem sync_notification_is_best_effort (w : World) (msg : JsVal) :
  queue w <> [] ->
  idb_fate 0 w = IdbOk ->
  remote_success (fetch_fate 0 w) = Some msg ->
  idb_fate 1 w = IdbOk ->
  last (net_log (trace (run syncData w))) =
    Some {| req_url := appsScriptUrl (settings (page w));
            req_body := UpdateLastSyncTime (deviceId (page w)) |}
  /\ length (net_log (trace (run syncData w))) = (length (net_log (trace w)) + 2)%nat
  /\ sync_outcome (syncData w) = Some (Success msg)
  /\ queue (run syncData w) = []
  /\ lastSyncMarker (run syncData w) = Some (js (pretty (hd 0 (clock (env w)))))
  /\ last (console (trace (run syncData w))) =
       Some match fetch_fate 1 w with
            | NetReject name message => WarnLastSyncFailed (VError name message)
            | NetResponse _ _ => LogLastSyncUpdated
            end.
Proof.
  intros Hq Hidb Hok Hclear.
  destruct (syncData_accepted w msg Hq Hidb Hok Hclear)
    as (Hret & Hst & Hqueue & Hls & Hlog & Hcon).
  repeat split.
  - rewrite Hlog.
    change [?a; ?b] with ([a] ++ [b]). now rewrite app_assoc, last_snoc.
  - rewrite Hlog, length_app. reflexivity.
  - now rewrite (sync_outcome_of_status w _ _ Hret Hst).
  - exact Hqueue.
  - unfold lastSyncMarker. rewrite Hls. apply lookup_insert_eq.
  - exact Hcon.
Qed.

Lemma sync_notification_is_best_effort_witness :
  last (net_log (trace (run syncData notification_fails_world))) =
    Some {| req_url := appsScriptUrl (settings (page notification_fails_world));
            req_body := UpdateLastSyncTime (deviceId (page notification_fails_world)) |}
  /\ length (net_log (trace (run syncData notification_fails_world))) =
       (length (net_log (trace notification_fails_world)) + 2)%nat
  /\ sync_outcome (syncData notification_fails_world) = Some (Success (VStr (js "ok")))
  /\ queue (run syncData notification_fails_world) = []
  /\ lastSyncMarker (run syncData notification_fails_world)
     = Some (js (pretty (hd 0 (clock (env notification_fails_world)))))
  /\ last (console (trace (run syncData notification_fails_world))) =
       Some (WarnLastSyncFailed (VError (js "TypeError") (js "Load failed"))).
Proof.
  apply (sync_notification_is_best_effort notification_fails_world (VStr (js "ok")));
    [discriminate | reflexivity..].
Defined.



(* ===================================================================== *)
(** ** Scan ingestion *)
(* ===================================================================== *)

Lemma settings_present_or_missing (s : Settings) :
  settings_present s \/ settings_missing s.
Proof.
  unfold settings_present, settings_missing.
  destruct (truthy (appsScriptUrl s)), (truthy (storeId s)), (truthy (pointValue s)); auto.
Qed.

Lemma settings_not_both (s : Settings) :
  settings_present s -> settings_missing s -> False.
Proof.
  unfold settings_present, settings_missing.
  intros (-> & -> & ->) [H | [H | H]]; discriminate.
Qed.

(** The run of the listener when a configuration value is missing. *)
Lemma submitScan_settings_missing (raw : jsstring) (w : World) :
  settings_missing (settings (page w)) ->
  fst (submitScan raw w) = Return tt
  /\ currentStatus (page (run (submitScan raw) w)) = (TxtSettingsIncomplete, ClsError)
  /\ device (run (submitScan raw) w) = device w
  /\ env (run (submitScan raw) w) = env w
  /\ dialogs (trace (run (submitScan raw) w)) = dialogs (trace w) ++ [AlertSettingsFirst].
Proof.
  intros Hmiss. unfold run. remember (submitScan raw w) as R eqn:E.
  run_app. rewrite eqb_Enter in E. cbn in E.
  unfold settings_missing in Hmiss.
  destruct (truthy (appsScriptUrl (settings (page w)))),
           (truthy (storeId (settings (page w)))),
           (truthy (pointValue (settings (page w))));
    cbn in E; subst R; cbn; auto; destruct Hmiss as [H | [H | H]]; discriminate.
Qed.

(** The run of the listener on an input that is not a member number. *)
Lemma submitScan_invalid (raw : jsstring) (w : World) :
  settings_present (settings (page w)) ->
  valid_memberId (trim raw) = false ->
  fst (submitScan raw w) = Return tt
  /\ currentStatus (page (run (submitScan raw) w)) = (TxtInvalidMember (trim raw), ClsError)
  /\ device (run (submitScan raw) w) = device w
  /\ env (run (submitScan raw) w) = env w.
Proof.
  intros (H1 & H2 & H3) Hinv. unfold run. remember (submitScan raw w) as R eqn:E.
  run_app. rewrite eqb_Enter in E. cbn in E.
  rewrite H1, H2, H3, Hinv in E. cbn in E. subst R. cbn. auto.
Qed.

(** The run of the listener on a member number that the store takes. *)
Lemma submitScan_stored (raw : jsstring) (w : World) :
  settings_present (settings (page w)) ->
  valid_memberId (trim raw) = true ->
  idb_fate 0 w = IdbOk ->
  fst (submitScan raw w) = Return tt
  /\ currentStatus (page (run (submitScan raw) w)) = (TxtPointAdded (trim raw), ClsSuccess)
  /\ queue (run (submitScan raw) w) =
       queue w ++ [{| entry_id := keyGenerator (objectStore w);
                      memberId := trim raw;
                      timestamp := ISOString (hd 0 (clock (env w)));
                      entryDeviceId := deviceId (page w) |}]
  /\ localStorage (device (run (submitScan raw) w)) = localStorage (device w)
  /\ net_log (trace (run (submitScan raw) w)) = net_log (trace w).
Proof.
  intros (H1 & H2 & H3) Hval Hidb. unfold run. remember (submitScan raw w) as R eqn:E.
  run_app. rewrite eqb_Enter in E. cbn in E.
  rewrite H1, H2, H3, Hval in E. cbn in E. rewrite Hidb in E. cbn in E.
  destruct (indexedDB (device w)) as [st|] eqn:Hdb; cbn in E;
    destruct (hd IdbOk (tail (idb_script (env w)))); cbn in E; subst R; cbn;
    rewrite ?Hdb; cbn; auto 10.
Qed.

(** The run of the listener on a member number that the store refuses:
    the exception leaves the listener, which has written nothing to the
    page but the blanking of the input field. *)
Lemma submitScan_storage_fault (raw : jsstring) (w : World) :
  settings_present (settings (page w)) ->
  valid_memberId (trim raw) = true ->
  idb_rejects (idb_fate 0 w) = true ->
  fst (submitScan raw w) =
    Throw match idb_fate 0 w with
          | IdbRequestError name message => VError name message
          | _ => VStr (js "IndexedDB error")
          end
  /\ queue (run (submitScan raw) w) = queue w
  /\ localStorage (device (run (submitScan raw) w)) = localStorage (device w)
  /\ currentStatus (page (run (submitScan raw) w)) = currentStatus (page w)
  /\ scanResult (page (run (submitScan raw) w)) = scanResult (page w)
  /\ scanInput_value (page (run (submitScan raw) w)) = []
  /\ dialogs (trace (run (submitScan raw) w)) = dialogs (trace w).
Proof.
  intros (H1 & H2 & H3) Hval Hidb. unfold run. remember (submitScan raw w) as R eqn:E.
  run_app. rewrite eqb_Enter in E. cbn in E.
  rewrite H1, H2, H3, Hval in E. cbn in E.
  destruct (hd IdbOk (idb_script (env w))); try discriminate Hidb; cbn in E;
    destruct (indexedDB (device w)) as [st|] eqn:Hdb; cbn in E;
    subst R; cbn; rewrite ?Hdb; auto 10.
Qed.

(** The run of the listener on a member number whose record the store
    takes and then loses: the [add] request succeeds, the transaction
    aborts as it commits. The listener reports the scan as stored. *)
Lemma submitScan_commit_aborted (raw : jsstring) (w : World) :
  settings_present (settings (page w)) ->
  valid_memberId (trim raw) = true ->
  idb_fate 0 w = IdbCommitAborted ->
  fst (submitScan raw w) = Return tt
  /\ currentStatus (page (run (submitScan raw) w)) = (TxtPointAdded (trim raw), ClsSuccess)
  /\ queue (run (submitScan raw) w) = queue w
  /\ localStorage (device (run (submitScan raw) w)) = localStorage (device w)
  /\ net_log (trace (run (submitScan raw) w)) = net_log (trace w).
Proof.
  intros (H1 & H2 & H3) Hval Hidb. unfold run. remember (submitScan raw w) as R eqn:E.
  run_app. rewrite eqb_Enter in E. cbn in E.
  rewrite H1, H2, H3, Hval in E. cbn in E. rewrite Hidb in E. cbn in E.
  destruct (indexedDB (device w)) as [st|] eqn:Hdb; cbn in E;
    destruct (hd IdbOk (tail (idb_script (env w)))); cbn in E; subst R; cbn;
    rewrite ?Hdb; cbn; auto 10.
Qed.

Lemma is_digit_spec (c : code_unit) : is_digit c = true <-> ascii_digit c.
Proof.
  unfold is_digit, ascii_digit.
  rewrite andb_true_iff, N.leb_le, N.leb_le. reflexivity.
Qed.

Lemma forallb_is_digit (s : jsstring) :
  forallb is_digit s = true <-> Forall ascii_digit s.
Proof.
  induction s as [|c r IH]; cbn.
  - split; auto.
  - rewrite andb_true_iff, is_digit_spec, IH. split.
    + intros [Hc Hr]. now constructor.
    + intros H. inversion H; subst. auto.
Qed.

(** The test of the listener is the rule of the specification. *)
Lemma valid_memberId_spec (s : jsstring) :
  valid_memberId s = true <-> fourteen_digits s.
Proof.
  unfold valid_memberId, fourteen_digits.
  rewrite andb_true_iff, Nat.eqb_eq.
  destruct s as [|c r].
  - cbn. split; intros [H _]; discriminate.
  - change (test_digits (c :: r)) with (forallb is_digit (c :: r)).
    now rewrite forallb_is_digit.
Qed.

Lemma scan_outcome_of_status (raw : jsstring) (w : World) (t : StatusText) (c : ClassName) :
  fst (submitScan raw w) = Return tt ->
  currentStatus (page (run (submitScan raw) w)) = (t, c) ->
  scan_outcome (submitScan raw w) =
    match t with
    | TxtPointAdded m => Some (Accepted m)
    | TxtInvalidMember _ => Some (Rejected InvalidMemberIdentifier)
    | TxtSettingsIncomplete => Some (Rejected ConfigurationMissing)
    | _ => None
    end.
Proof.
  unfold run, scan_outcome. destruct (submitScan raw w) as [r w']. cbn.
  intros -> ->. reflexivity.
Qed.

Lemma scan_outcome_of_throw (raw : jsstring) (w : World) (e : JsVal) :
  fst (submitScan raw w) = Throw e -> scan_outcome (submitScan raw w) = None.
Proof.
  unfold scan_outcome. destruct (submitScan raw w) as [r w']. cbn.
  intros ->. reflexivity.
Qed.

(** C3, as stated, fails: with the settings saved, the scanner sends a
    member number of 14 digits and the transaction of the [add] aborts as
    it commits. The scan is reported as accepted and the queue has no
    record more. *)
Lemma submitScan_accepted_without_record_counterexample :
  fourteen_digits (trim (js "12345678901234"))
  /\ scan_outcome (submitScan (js "12345678901234") commit_aborts_world)
     = Some (Accepted (js "12345678901234"))
  /\ queue (run (submitScan (js "12345678901234")) commit_aborts_world)
     = queue commit_aborts_world
  /\ ~ (length (queue (run (submitScan (js "12345678901234")) commit_aborts_world))
        = S (length (queue commit_aborts_world))).
Proof.
  split; [apply valid_memberId_spec; reflexivity |].
  split; [reflexivity |]. split; [reflexivity |].
  vm_compute. discriminate.
Qed.

(** C3 (amended): a scan whose trimmed input is not 14 ASCII digits is
    rejected and leaves the device, hence the queue, as it was; a scan is
    reported as accepted only when its trimmed input is 14 ASCII digits,
    and then, unless the transaction that stores the record aborts as it
    commits, the queue has exactly one record more, the last one, whose
    [memberId] is the trimmed input; and a scan of 14 ASCII digits is
    accepted whenever the settings are there and the promise of
    [addEntry] does not reject. *)
Theorem submitScan_accepts_fourteen_digits (raw : jsstring) (w : World) :
  (~ fourteen_digits (trim raw) ->
     (exists reason, scan_outcome (submitScan raw w) = Some (Rejected reason))
     /\ device (run (submitScan raw) w) = device w
     /\ length (queue (run (submitScan raw) w)) = length (queue w))
  /\ (forall m, scan_outcome (submitScan raw w) = Some (Accepted m) ->
        fourteen_digits (trim raw)
        /\ m = trim raw
        /\ (idb_fate 0 w <> IdbCommitAborted ->
            length (queue (run (submitScan raw) w)) = S (length (queue w))
            /\ exists e, queue (run (submitScan raw) w) = queue w ++ [e]
                         /\ memberId e = trim raw))
  /\ (fourteen_digits (trim raw) ->
      settings_present (settings (page w)) ->
      idb_rejects (idb_fate 0 w) = false ->
      scan_outcome (submitScan raw w) = Some (Accepted (trim raw))).
Proof.
  pose proof (valid_memberId_spec (trim raw)) as Hspec.
  destruct (settings_present_or_missing (settings (page w))) as [Hset | Hmiss].
  - destruct (valid_memberId (trim raw)) eqn:Hval.
    + assert (Hd : fourteen_digits (trim raw)) by now apply Hspec.
      split; [intros Hn; contradiction |].
      destruct (idb_fate 0 w) eqn:Hidb.
      * destruct (submitScan_stored raw w Hset Hval Hidb) as (Hret & Hst & Hq & _).
        rewrite (scan_outcome_of_status raw w _ _ Hret Hst).
        split; [| reflexivity].
        intros m [= <-]. rewrite Hq, length_app. cbn.
        split; [exact Hd |]. split; [reflexivity |]. intros _. split; [lia |].
        eexists. split; reflexivity.
      * destruct (submitScan_storage_fault raw w Hset Hval) as (Hret & _);
          [now rewrite Hidb |].
        rewrite (scan_outcome_of_throw raw w _ Hret).
        split; [discriminate | intros _ _ [=]].
      * destruct (submitScan_storage_fault raw w Hset Hval) as (Hret & _);
          [now rewrite Hidb |].
        rewrite (scan_outcome_of_throw raw w _ Hret).
        split; [discriminate | intros _ _ [=]].
      * destruct (submitScan_commit_aborted raw w Hset Hval Hidb) as (Hret & Hst & _).
        rewrite (scan_outcome_of_status raw w _ _ Hret Hst).
        split; [| reflexivity].
        intros m [= <-]. split; [exact Hd |]. split; [reflexivity |].
        intros Hcommit. now destruct Hcommit.
    + assert (Hd : ~ fourteen_digits (trim raw)).
      { intros H. apply Hspec in H. discriminate. }
      destruct (submitScan_invalid raw w Hset Hval) as (Hret & Hst & Hdev & _).
      rewrite (scan_outcome_of_status raw w _ _ Hret Hst).
      split; [| split; [discriminate | intros H; contradiction]].
      intros _. split; [eauto |]. split; [exact Hdev |]. unfold queue. now rewrite Hdev.
  - destruct (submitScan_settings_missing raw w Hmiss) as (Hret & Hst & Hdev & _).
    rewrite (scan_outcome_of_status raw w _ _ Hret Hst).
    split; [| split; [discriminate |]].
    + intros _. split; [eauto |]. split; [exact Hdev |]. unfold queue. now rewrite Hdev.
    + intros _ Hset. destruct (settings_not_both _ Hset Hmiss).
Qed.

Lemma submitScan_accepts_fourteen_digits_witness :
  ((exists reason, scan_outcome (submitScan (js "1234-5678") (loaded_world quiet_env))
                   = Some (Rejected reason))
   /\ device (run (submitScan (js "1234-5678")) (loaded_world quiet_env))
      = device (loaded_world quiet_env)
   /\ length (queue (run (submitScan (js "1234-5678")) (loaded_world quiet_env)))
      = length (queue (loaded_world quiet_env)))
  /\ scan_outcome (submitScan (js " 12345678901234 ") (loaded_world quiet_env))
     = Some (Accepted (js "12345678901234"))
  /\ (fourteen_digits (trim (js " 12345678901234 "))
      /\ js "12345678901234" = trim (js " 12345678901234 ")
      /\ length (queue (run (submitScan (js " 12345678901234 ")) (loaded_world quiet_env)))
         = S (length (queue (loaded_world quiet_env)))
      /\ exists e, queue (run (submitScan (js " 12345678901234 ")) (loaded_world quiet_env))
                   = queue (loaded_world quiet_env) ++ [e]
                   /\ memberId e = trim (js " 12345678901234 ")).
Proof.
  assert (Hd : fourteen_digits (trim (js " 12345678901234 "))).
  { apply valid_memberId_spec. reflexivity. }
  assert (Hn : ~ fourteen_digits (trim (js "1234-5678"))).
  { intros H. apply valid_memberId_spec in H. discriminate. }
  split; [| split].
  - apply (submitScan_accepts_fourteen_digits (js "1234-5678") (loaded_world quiet_env)).
    exact Hn.
  - apply (submitScan_accepts_fourteen_digits (js " 12345678901234 ") (loaded_world quiet_env));
      [exact Hd | repeat split | reflexivity].
  - destruct (submitScan_accepts_fourteen_digits (js " 12345678901234 ")
                (loaded_world quiet_env)) as (_ & H & _).
    destruct (H (js "12345678901234") eq_refl) as (H1 & H2 & H3).
    split; [exact H1 |]. split; [exact H2 |]. apply H3. discriminate.
Defined.

(** C6: a scan made while a configuration value is missing (the address,
    the store identifier or the point value is [undefined], or empty,
    zero or [NaN]) is rejected as [ConfigurationMissing] after an alert,
    whatever the input; the device is as it was, so the queue is
    unchanged, and no database operation has been started. *)
Theorem submitScan_requires_settings (raw : jsstring) (w : World) :
  settings_missing (settings (page w)) ->
  scan_outcome (submitScan raw w) = Some (Rejected ConfigurationMissing)
  /\ device (run (submitScan raw) w) = device w
  /\ queue (run (submitScan raw) w) = queue w
  /\ idb_script (env (run (submitScan raw) w)) = idb_script (env w)
  /\ last (dialogs (trace (run (submitScan raw) w))) = Some AlertSettingsFirst.
Proof.
  intros Hmiss.
  destruct (submitScan_settings_missing raw w Hmiss) as (Hret & Hst & Hdev & Henv & Hdlg).
  rewrite (scan_outcome_of_status raw w _ _ Hret Hst), Hdev, Henv, Hdlg, last_snoc.
  unfold queue. rewrite Hdev. auto.
Qed.

Lemma submitScan_requires_settings_witness :
  scan_outcome (submitScan (js "12345678901234") unconfigured_world)
  = Some (Rejected ConfigurationMissing)
  /\ device (run (submitScan (js "12345678901234")) unconfigured_world)
     = device unconfigured_world
  /\ queue (run (submitScan (js "12345678901234")) unconfigured_world)
     = queue unconfigured_world
  /\ idb_script (env (run (submitScan (js "12345678901234")) unconfigured_world))
     = idb_script (env unconfigured_world)
  /\ last (dialogs (trace (run (submitScan (js "12345678901234")) unconfigured_world)))
     = Some AlertSettingsFirst.
Proof.
  apply (submitScan_requires_settings (js "12345678901234") unconfigured_world).
  left. reflexivity.
Defined.

(** C5, at the failing input: after one stored scan, a second member
    number meets a store whose [add] request fails. The listener ends
    with the exception, which nothing catches: no outcome is reported,
    the status line still shows the success of the first scan, no dialog
    has opened, the input field has been blanked, and the queue holds the
    first record only. *)
Theorem submitScan_storage_fault_unreported :
  fst (submitScan (js "98765432109876") storage_fault_world)
  = Throw (VError (js "QuotaExceededError") (js "The quota has been exceeded."))
  /\ scan_outcome (submitScan (js "98765432109876") storage_fault_world) = None
  /\ currentStatus (page (run (submitScan (js "98765432109876")) storage_fault_world))
     = (TxtPointAdded (js "12345678901234"), ClsSuccess)
  /\ scanResult (page (run (submitScan (js "98765432109876")) storage_fault_world))
     = ScanResultRead (js "12345678901234")
  /\ scanInput_value (page (run (submitScan (js "98765432109876")) storage_fault_world)) = []
  /\ dialogs (trace (run (submitScan (js "98765432109876")) storage_fault_world)) = []
  /\ map memberId (queue (run (submitScan (js "98765432109876")) storage_fault_world))
     = [js "12345678901234"].
Proof. vm_compute. repeat split. Qed.

(* ===================================================================== *)
(** ** Device identity *)
(* ===================================================================== *)

(** A UUID has 36 characters. *)
Lemma uuid_v4_length (e : N) : length (uuid_v4 e) = 36%nat.
Proof. reflexivity. Qed.


Lemma getOrCreate_run (w : World) :
  fst (getOrCreate w) = Return (identity_of w)
  /\ deviceId (page (run getOrCreate w)) = identity_of w
  /\ localStorage (device (run getOrCreate w)) =
       <[DEVICE_ID_KEY := identity_of w]> (localStorage (device w))
  /\ indexedDB (device (run getOrCreate w)) = indexedDB (device w)
  /\ confirm_script (env (run getOrCreate w)) = confirm_script (env w)
  /\ (truthy (VStr (identity_of w)) = true).
Proof.
  unfold run, identity_of. remember (getOrCreate w) as R eqn:E.
  run_app.
  destruct (localStorage (device w) !! DEVICE_ID_KEY) as [s|] eqn:Hls; cbn in E.
  - destruct (truthy (VStr s)) eqn:Hs; cbn in E; subst R; cbn; auto 10.
  - subst R; cbn; auto 10.
Qed.


Lemma resetDevice_confirmed_run (w : World) :
  deviceId (page (run resetDevice_confirmed w)) = uuid_v4 (hd 0%N (rng (env w)))
  /\ localStorage (device (run resetDevice_confirmed w)) = ∅
  /\ indexedDB (device (run resetDevice_confirmed w)) = indexedDB (device w)
  /\ settings (page (run resetDevice_confirmed w)) = settings (page w)
  /\ rng (env (run resetDevice_confirmed w)) = tl (rng (env w))
  /\ deleteDatabase_log (trace (run resetDevice_confirmed w))
     = deleteDatabase_log (trace w) ++ [DB_NAME].
Proof.
  unfold run. remember (resetDevice_confirmed w) as R eqn:E.
  run_app. subst R. cbn. auto 10.
Qed.



(** The run of [syncData] when the queue cannot be read: the exception
    leaves [syncData] before its [try] block. *)
Lemma syncData_read_failed (w : World) :
  idb_rejects (idb_fate 0 w) = true ->
  fst (syncData w) =
    Throw match idb_fate 0 w with
          | IdbRequestError name message => VError name message
          | _ => VStr (js "IndexedDB error")
          end
  /\ queue (run syncData w) = queue w
  /\ localStorage (device (run syncData w)) = localStorage (device w)
  /\ net_log (trace (run syncData w)) = net_log (trace w)
  /\ currentStatus (page (run syncData w)) = (TxtSyncing, ClsInfo)
  /\ syncDataButton_disabled (page (run syncData w)) = true.
Proof.
  intros Hidb. unfold run. remember (syncData w) as R eqn:E.
  run_app.
  destruct (hd IdbOk (idb_script (env w))); try discriminate Hidb; cbn in E;
    destruct (indexedDB (device w)) as [st|] eqn:Hdb; cbn in E;
    subst R; cbn; rewrite ?Hdb; auto 10.
Qed.

(** The read of the queue gives [syncData] the same records whether its
    transaction commits or aborts: the run is the one of a storage whose
    next fate is [IdbOk]. *)
Lemma syncData_read_fate (w : World) :
  idb_rejects (idb_fate 0 w) = false ->
  syncData w = syncData (with_env (set_idb_script (IdbOk :: tl (idb_script (env w)))) w).
Proof.
  intros Hidb. unfold idb_fate in Hidb. cbn in Hidb.
  unfold syncData, syncData_try, getAllEntries, idb_next, idb_fate, openDB, store_getAll,
    set_status, mbind, M_bind, bind, try_finally, modify, gets.
  cbn.
  destruct (hd IdbOk (idb_script (env w))); try discriminate Hidb; reflexivity.
Qed.








(* ===================================================================== *)
(** ** The service worker *)
(* ===================================================================== *)

Lemma Cache_find_Some (u : jsstring) (c : SW.Cache) (r : SW.Response) :
  SW.Cache_find u c = Some r -> In (u, r) c.
Proof.
  induction c as [|[u' r'] c IH]; cbn; [discriminate |].
  unfold jsstring_eqb. case_bool_decide as Hu.
  - intros [= <-]. subst u'. now left.
  - intros H. right. now apply IH.
Qed.

Lemma Cache_find_None (u : jsstring) (c : SW.Cache) :
  SW.Cache_find u c = None -> forall r, ~ In (u, r) c.
Proof.
  induction c as [|[u' r'] c IH]; cbn; [tauto |].
  unfold jsstring_eqb. case_bool_decide as Hu; [discriminate |].
  intros H r [[= Heq _] | Hin]; [congruence | exact (IH H r Hin)].
Qed.

Lemma CacheStorage_match_Some (request : SW.Request) (cs : SW.CacheStorage)
      (r : SW.Response) :
  SW.CacheStorage_match request cs = Some r -> SW.cached request r cs.
Proof.
  unfold SW.cached.
  induction cs as [|[name c] cs IH]; cbn; [discriminate |].
  unfold SW.Cache_match, jsstring_eqb. case_bool_decide as Hm.
  - destruct (SW.Cache_find (SW.url request) c) as [r'|] eqn:Hfind.
    + intros [= <-]. split; [exact Hm |]. exists name, c.
      split; [now left | now apply Cache_find_Some].
    + intros H. destruct (IH H) as (_ & name' & c' & Hin & Hin').
      split; [exact Hm |]. exists name', c'. split; [now right | exact Hin'].
  - intros H. destruct (IH H) as (Hget & _). contradiction.
Qed.

Lemma CacheStorage_match_None (request : SW.Request) (cs : SW.CacheStorage) :
  SW.CacheStorage_match request cs = None -> forall r, ~ SW.cached request r cs.
Proof.
  unfold SW.cached.
  induction cs as [|[name c] cs IH]; cbn.
  - intros _ r (_ & name & c & [] & _).
  - unfold SW.Cache_match, jsstring_eqb. case_bool_decide as Hm.
    + destruct (SW.Cache_find (SW.url request) c) as [r'|] eqn:Hfind; [discriminate |].
      intros H r (_ & name' & c' & [[= <- <-] | Hin] & Hin').
      * exact (Cache_find_None _ _ Hfind r Hin').
      * apply (IH H r). split; [exact Hm |]. now exists name', c'.
    + intros _ r (Hget & _). contradiction.
Qed.

(** C9: the [fetch] listener answers a request that has a copy in the
    caches with a cached copy and sends nothing to the network; it hands
    a request that has none to the network and answers with what the
    network gives (or fails as the network does); in both cases the
    caches are afterwards what they were. *)
Theorem onfetch_serves_cache_then_network (st : SW.State) (request : SW.Request) :
  SW.caches (snd (SW.onfetch request st)) = SW.caches st
  /\ ((exists r, SW.cached request r (SW.caches st)) ->
      exists r, SW.cached request r (SW.caches st)
                /\ fst (SW.onfetch request st) = Return r
                /\ SW.net_log (snd (SW.onfetch request st)) = SW.net_log st)
  /\ ((forall r, ~ SW.cached request r (SW.caches st)) ->
      fst (SW.onfetch request st) =
        match SW.network st request with
        | Some r => Return r
        | None => Throw (VError (js "TypeError") (js "Failed to fetch"))
        end
      /\ SW.net_log (snd (SW.onfetch request st)) = SW.net_log st ++ [request]).
Proof.
  unfold SW.onfetch, SW.caches_match, SW.fetch, mbind, M_bind, bind, mret, M_ret,
    ret, gets.
  destruct (SW.CacheStorage_match request (SW.caches st)) as [r|] eqn:Hmatch; cbn.
  - split; [reflexivity |]. split.
    + intros _. exists r. split; [now apply CacheStorage_match_Some | auto].
    + intros Hnone. destruct (Hnone r). now apply CacheStorage_match_Some.
  - destruct (SW.network st request) as [r|]; cbn.
    + split; [reflexivity |]. split; [| auto].
      intros (r' & Hr'). destruct (CacheStorage_match_None _ _ Hmatch r' Hr').
    + split; [reflexivity |]. split; [| auto].
      intros (r' & Hr'). destruct (CacheStorage_match_None _ _ Hmatch r' Hr').
Qed.

Lemma onfetch_serves_cache_then_network_witness :
  (exists r, SW.cached (SW.GET (js "index.html")) r (SW.caches sw_installed)
             /\ fst (SW.onfetch (SW.GET (js "index.html")) sw_installed) = Return r
             /\ SW.net_log (snd (SW.onfetch (SW.GET (js "index.html")) sw_installed))
                = SW.net_log sw_installed)
  /\ (fst (SW.onfetch (SW.GET (js "style.css")) sw_installed) =
        match SW.network sw_installed (SW.GET (js "style.css")) with
        | Some r => Return r
        | None => Throw (VError (js "TypeError") (js "Failed to fetch"))
        end
      /\ SW.net_log (snd (SW.onfetch (SW.GET (js "style.css")) sw_installed))
         = SW.net_log sw_installed ++ [SW.GET (js "style.css")])
  /\ SW.caches (snd (SW.onfetch (SW.GET (js "style.css")) sw_installed))
     = SW.caches sw_installed.
Proof.
  split; [| split].
  - apply (onfetch_serves_cache_then_network sw_installed (SW.GET (js "index.html"))).
    exists {| SW.ok := true; SW.content := js "index.html" |}.
    apply CacheStorage_match_Some. reflexivity.
  - apply (onfetch_serves_cache_then_network sw_installed (SW.GET (js "style.css"))).
    apply CacheStorage_match_None. reflexivity.
  - apply (onfetch_serves_cache_then_network sw_installed (SW.GET (js "style.css"))).
Defined.

(* ===================================================================== *)
(** ** What every run keeps *)
(* ===================================================================== *)

Section Preserves.

Context (P : World -> Prop).

Lemma preserves_ret {A} (a : A) : preserves P (ret a).
Proof. intros w H. exact H. Qed.

Lemma preserves_throw {A} (e : JsVal) : preserves P (@throw World A e).
Proof. intros w H. exact H. Qed.

Lemma preserves_gets {A} (f : World -> A) : preserves P (gets f).
Proof. intros w H. exact H. Qed.

Lemma preserves_bind {A B} (m : M World A) (k : A -> M World B) :
  preserves P m -> (forall a, preserves P (k a)) -> preserves P (bind m k).
Proof.
  intros Hm Hk w H. unfold bind. specialize (Hm w H).
  destruct (m w) as [[a | e] w1]; cbn in *; [now apply Hk | exact Hm].
Qed.

Lemma preserves_try_catch {A} (m : M World A) (h : JsVal -> M World A) :
  preserves P m -> (forall e, preserves P (h e)) -> preserves P (try_catch m h).
Proof.
  intros Hm Hh w H. unfold try_catch. specialize (Hm w H).
  destruct (m w) as [[a | e] w1]; cbn in *; [exact Hm | now apply Hh].
Qed.

Lemma preserves_try_finally {A} (m : M World A) (f : M World unit) :
  preserves P m -> preserves P f -> preserves P (try_finally m f).
Proof.
  intros Hm Hf w H. unfold try_finally. specialize (Hm w H).
  destruct (m w) as [r w1]; cbn in *. specialize (Hf w1 Hm).
  destruct (f w1) as [[[] | e] w2]; cbn in *; exact Hf.
Qed.

Lemma preserves_detached (m : M World unit) :
  preserves P m ->
  (forall e w, P w -> P (with_trace (log_console (UnhandledRejection e)) w)) ->
  preserves P (detached m).
Proof.
  intros Hm Hlog w H. unfold detached. specialize (Hm w H).
  destruct (m w) as [[[] | e] w1]; cbn in *; [exact Hm | now apply Hlog].
Qed.

End Preserves.

(** Walk through a computation, leaving the steps that write the state. *)
Ltac preserves_step :=
  lazymatch goal with
  | |- preserves _ (mbind _ _) => unfold mbind, M_bind
  | |- preserves _ (mret _) => unfold mret, M_ret
  | |- preserves _ (bind _ _) => apply preserves_bind; [| intros ?]
  | |- preserves _ (ret _) => apply preserves_ret
  | |- preserves _ (throw _) => apply preserves_throw
  | |- preserves _ (gets _) => apply preserves_gets
  | |- preserves _ (try_catch _ _) => apply preserves_try_catch; [| intros ?]
  | |- preserves _ (try_finally _ _) => apply preserves_try_finally
  | |- preserves _ (detached _) => apply preserves_detached
  | |- preserves _ (if ?b then _ else _) => destruct b eqn:?
  | |- preserves _ (match ?x with _ => _ end) => destruct x
  | |- preserves _ (let _ := _ in _) => cbv zeta
  | |- preserves _ (syncData) => unfold syncData
  | |- preserves _ (syncData_try _) => unfold syncData_try
  | |- preserves _ (syncData_catch _) => unfold syncData_catch
  | |- preserves _ (syncData_finally) => unfold syncData_finally
  | |- preserves _ (submitScan _) => unfold submitScan
  | |- preserves _ (scanInput_keypress _) => unfold scanInput_keypress
  | |- preserves _ (getOrCreate) => unfold getOrCreate
  | |- preserves _ (addEntry _) => unfold addEntry
  | |- preserves _ (getAllEntries) => unfold getAllEntries
  | |- preserves _ (clearEntries) => unfold clearEntries
  | |- preserves _ (updateQueueCount) => unfold updateQueueCount
  | |- preserves _ (localStorage_getItem _) => unfold localStorage_getItem
  | |- preserves _ (get_prop _ _) => unfold get_prop
  | |- preserves _ (Response_json _) => unfold Response_json
  | |- preserves _ (act _) => unfold act
  end.

Ltac preserves_walk := repeat preserves_step.

(** A step that writes the state, once unfolded. *)
Ltac preserves_leaf :=
  let w := fresh "w" in
  let H := fresh "H" in
  intros w H;
  unfold openDB, store_add, store_getAll, store_clear, idb_next, new_Date,
    crypto_randomUUID, fetch, alert, confirm, console_log, set_status,
    displayScanResult, localStorage_setItem, localStorage_clear,
    indexedDB_deleteDatabase, mbind, M_bind, bind, modify, gets, throw, ret;
  revert H; unfold with_device, with_page, with_env, with_trace; cbn;
  repeat first
    [ match goal with
      | |- context [match ?x with _ => _ end] => is_var x; destruct x; cbn
      end
    | match goal with
      | |- context [match ?x with _ => _ end] =>
          lazymatch x with
          | context [match _ with _ => _ end] => fail
          | _ => destruct x eqn:?; cbn
          end
      end ];
  intros H.

(** No page load, scan or sync writes the settings. *)
Lemma settings_kept (s : Settings) (a : Action) :
  preserves (fun w => settings (page w) = s) (act a).
Proof.
  destruct a; preserves_walk; try (intros e w H; exact H); preserves_leaf; exact H.
Qed.

(** The faults to come are a suffix of the faults that were to come. *)
Lemma storage_works_kept (a : Action) : preserves storage_works (act a).
Proof.
  assert (Htl : forall l : list IdbOutcome,
            Forall (fun o => o = IdbOk) l -> Forall (fun o => o = IdbOk) (tl l)).
  { intros [|o l] H; [exact H | now inversion H]. }
  unfold storage_works.
  destruct a; preserves_walk; try (intros e w H; exact H); preserves_leaf;
    auto.
Qed.

Lemma storage_works_fate (w : World) : storage_works w -> idb_fate 0 w = IdbOk.
Proof.
  unfold storage_works, idb_fate. cbn.
  destruct (idb_script (env w)) as [|o l]; [reflexivity |].
  intros H. now inversion H.
Qed.

(* ===================================================================== *)
(** ** The queue store *)
(* ===================================================================== *)

Lemma ordered_keys_new : ordered_keys createObjectStore.
Proof. repeat split; cbn; [lia | constructor | constructor]. Qed.

Lemma ordered_keys_add (st : ObjectStore) (m : jsstring) (t : iso8601) (d : jsstring) :
  ordered_keys st ->
  ordered_keys {| records := records st
                    ++ [{| entry_id := keyGenerator st; memberId := m;
                           timestamp := t; entryDeviceId := d |}];
                  keyGenerator := (keyGenerator st + 1)%N |}.
Proof.
  intros (Hk & Hall & Hsorted). repeat split; cbn.
  - lia.
  - apply Forall_app. split.
    + eapply Forall_impl; [exact Hall |]. cbn. intros e He. lia.
    + repeat constructor; cbn; lia.
  - rewrite map_app. cbn.
    clear Hk. induction (records st) as [|e l IH]; cbn.
    + repeat constructor.
    + inversion Hsorted; subst. inversion Hall; subst. constructor.
      * now apply IH.
      * apply Forall_app. split; [assumption |]. repeat constructor. lia.
Qed.

Lemma ordered_keys_clear (st : ObjectStore) :
  ordered_keys st -> ordered_keys {| records := []; keyGenerator := keyGenerator st |}.
Proof. intros (Hk & _). repeat split; cbn; [exact Hk | constructor | constructor]. Qed.

(** No page load, scan or sync breaks the order of the keys. *)
Lemma keys_in_order_kept (a : Action) : preserves keys_in_order (act a).
Proof.
  unfold keys_in_order, objectStore.
  destruct a; preserves_walk; try (intros e w H; exact H); preserves_leaf;
    simplify_eq; unfold objectStore;
    repeat match goal with
           | E : indexedDB (device ?w) = _ |- context [indexedDB (device ?w)] =>
               rewrite E
           end;
    auto using ordered_keys_new, ordered_keys_add, ordered_keys_clear.
Qed.

(** No page load, scan or sync queues anything but a member number. *)
Lemma members_valid_kept (a : Action) : preserves members_valid (act a).
Proof.
  unfold members_valid, queue.
  destruct a; preserves_walk; try (intros e w H; exact H); preserves_leaf;
    simplify_eq; unfold objectStore;
    repeat match goal with
           | E : indexedDB (device ?w) = _ |- context [indexedDB (device ?w)] =>
               rewrite E
           end;
    cbn; auto; try (apply Forall_app; split; [assumption |]);
    repeat constructor; cbn; now apply valid_memberId_spec.
Qed.

(** What every action keeps, a session keeps. *)
Lemma run_all_preserves (P : World -> Prop) (l : list Action) (w : World) :
  (forall a, preserves P (act a)) -> P w -> P (run_all l w).
Proof.
  intros Hact. revert w. induction l as [|a l IH]; intros w H; cbn.
  - exact H.
  - apply IH. exact (Hact a w H).
Qed.

(** The key generator never goes back. *)
Lemma keyGenerator_kept (k : N) (a : Action) :
  preserves (fun w => (k <= keyGenerator (objectStore w))%N) (act a).
Proof.
  unfold objectStore.
  destruct a; preserves_walk; try (intros e w H; exact H); preserves_leaf;
    simplify_eq; unfold objectStore;
    repeat match goal with
           | E : indexedDB (device ?w) = _ |- context [indexedDB (device ?w)] =>
               rewrite E
           end;
    cbn in *; lia.
Qed.

Lemma queue_objectStore (w : World) : queue w = records (objectStore w).
Proof. unfold queue, objectStore. now destruct (indexedDB (device w)). Qed.

Lemma StronglySorted_lt_NoDup (l : list N) : StronglySorted N.lt l -> List.NoDup l.
Proof.
  induction 1 as [|x l Hs IH Hall]; constructor; [| exact IH].
  intros Hin. rewrite List.Forall_forall in Hall. specialize (Hall x Hin). lia.
Qed.

(** X1: in any session of page loads, scans and syncs, with any faults of
    the storage and any answers of the network, the store keeps its keys
    in order: the queued records are in strictly ascending key order,
    every key is at least 1 and below the number of the key generator; so
    no two queued records share a key; and the key generator never goes
    back, the clearing of the queue by a sync included. *)
Theorem keys_in_order_session (session : list Action) (w : World) :
  keys_in_order w ->
  keys_in_order (run_all session w)
  /\ List.NoDup (map entry_id (queue (run_all session w)))
  /\ (keyGenerator (objectStore w) <= keyGenerator (objectStore (run_all session w)))%N.
Proof.
  intros H.
  assert (Hord : keys_in_order (run_all session w)).
  { apply run_all_preserves; [exact keys_in_order_kept | exact H]. }
  split; [exact Hord |]. split.
  - rewrite queue_objectStore. apply StronglySorted_lt_NoDup, Hord.
  - apply (run_all_preserves
             (fun w' => (keyGenerator (objectStore w) <= keyGenerator (objectStore w'))%N));
      [intros a; apply keyGenerator_kept | lia].
Qed.

Lemma keys_in_order_session_witness :
  keys_in_order (run_all sample_session (loaded_world (env_with [reply_ok] [])))
  /\ List.NoDup (map entry_id
                   (queue (run_all sample_session (loaded_world (env_with [reply_ok] [])))))
  /\ (keyGenerator (objectStore (loaded_world (env_with [reply_ok] [])))
      <= keyGenerator
           (objectStore (run_all sample_session (loaded_world (env_with [reply_ok] [])))))%N.
Proof.
  apply keys_in_order_session.
  unfold keys_in_order. apply ordered_keys_new.
Defined.

(** X2: in any session of page loads, scans and syncs, a queue that holds
    only member numbers of 14 ASCII digits goes on holding only such
    numbers: validation comes before insertion on every path. *)
Theorem members_valid_session (session : list Action) (w : World) :
  members_valid w -> members_valid (run_all session w).
Proof. intros H. apply run_all_preserves; [exact members_valid_kept | exact H]. Qed.

Lemma members_valid_session_witness :
  members_valid (run_all (Scan (js "12-34") :: sample_session)
                   (loaded_world (env_with [reply_rejected] []))).
Proof.
  apply members_valid_session. constructor.
Defined.

(** Neither a scan nor a sync writes the identifier in use. *)
Lemma deviceId_kept (d : jsstring) (a : Action) :
  a <> Load -> preserves (fun w => deviceId (page w) = d) (act a).
Proof.
  destruct a; [congruence | |]; intros _;
    preserves_walk; try (intros e w H; exact H); preserves_leaf; exact H.
Qed.

(** X3: with the settings in place and a storage that works, scanning a
    run of member numbers appends one record for each, in the order of
    the scans, each with the trimmed input as [memberId] and the
    identifier of the device. *)
Theorem scans_queue_in_order (raws : list jsstring) (w : World) :
  settings_present (settings (page w)) ->
  storage_works w ->
  Forall (fun raw => fourteen_digits (trim raw)) raws ->
  exists new,
    queue (run_all (map Scan raws) w) = queue w ++ new
    /\ map memberId new = map trim raws
    /\ Forall (fun e => entryDeviceId e = deviceId (page w)) new.
Proof.
  revert w. induction raws as [|raw raws IH]; intros w Hset Hidb Hvalid.
  - exists []. cbn. rewrite app_nil_r. auto.
  - inversion Hvalid as [|? ? Hraw Hrest]; subst.
    apply valid_memberId_spec in Hraw.
    destruct (submitScan_stored raw w Hset Hraw (storage_works_fate w Hidb))
      as (_ & _ & Hq & _).
    pose proof (settings_kept (settings (page w)) (Scan raw) w eq_refl) as Hs.
    pose proof (storage_works_kept (Scan raw) w Hidb) as Hi.
    pose proof (deviceId_kept (deviceId (page w)) (Scan raw) ltac:(discriminate) w eq_refl)
      as Hd.
    cbn [act] in Hs, Hi, Hd. fold (run (submitScan raw) w) in Hs, Hi, Hd.
    destruct (IH (run (submitScan raw) w)) as (new & Hnew & Hmem & Hdev).
    + now rewrite Hs.
    + exact Hi.
    + exact Hrest.
    + eexists (_ :: new). cbn [map run_all fold_left act].
      change (fold_left (fun w0 a => run (act a) w0) (map Scan raws)
                (run (submitScan raw) w))
        with (run_all (map Scan raws) (run (submitScan raw) w)).
      rewrite Hnew, Hq, <- app_assoc. cbn.
      split; [reflexivity |]. split; [now rewrite Hmem |].
      constructor; [reflexivity | now rewrite <- Hd].
Qed.

Lemma scans_queue_in_order_witness :
  exists new,
    queue (run_all (map Scan [js " 12345678901234"; js "00000000000000"; js "12345678901234"])
             (loaded_world quiet_env))
    = queue (loaded_world quiet_env) ++ new
    /\ map memberId new
       = map trim [js " 12345678901234"; js "00000000000000"; js "12345678901234"]
    /\ Forall (fun e => entryDeviceId e = deviceId (page (loaded_world quiet_env))) new.
Proof.
  apply scans_queue_in_order.
  - repeat split.
  - constructor.
  - repeat (apply List.Forall_cons; [apply valid_memberId_spec; reflexivity |]).
    apply List.Forall_nil.
Defined.

(** X4: the refresh of the displayed count after a stored scan is a call
    whose promise is dropped: when its read of the queue works the page
    shows the new length of the queue; when it fails the scan is accepted
    all the same, the page goes on showing the old count, and the error
    reaches only the console. *)
Theorem counter_refresh_is_detached (raw : jsstring) (w : World) :
  settings_present (settings (page w)) ->
  fourteen_digits (trim raw) ->
  idb_fate 0 w = IdbOk ->
  scan_outcome (submitScan raw w) = Some (Accepted (trim raw))
  /\ length (queue (run (submitScan raw) w)) = S (length (queue w))
  /\ (idb_rejects (idb_fate 1 w) = false ->
      offlineQueueCount (page (run (submitScan raw) w)) = Some (S (length (queue w))))
  /\ (idb_rejects (idb_fate 1 w) = true ->
      offlineQueueCount (page (run (submitScan raw) w)) = offlineQueueCount (page w)
      /\ last (console (trace (run (submitScan raw) w))) =
           Some (UnhandledRejection
                   match idb_fate 1 w with
                   | IdbRequestError name message => VError name message
                   | _ => VStr (js "IndexedDB error")
                   end)).
Proof.
  intros (H1 & H2 & H3) Hval Hidb. apply valid_memberId_spec in Hval.
  unfold run. remember (submitScan raw w) as R eqn:E.
  run_app. rewrite eqb_Enter in E. cbn in E.
  rewrite H1, H2, H3, Hval in E. cbn in E. rewrite Hidb in E. cbn in E.
  destruct (indexedDB (device w)) as [st|] eqn:Hdb; cbn in E;
    destruct (hd IdbOk (tail (idb_script (env w)))); cbn in E; subst R; cbn;
    rewrite ?Hdb; cbn; rewrite ?length_app, ?last_snoc; cbn;
    repeat split; try reflexivity; try lia; try congruence;
    intros; try contradiction; try discriminate; try (f_equal; lia).
Qed.

Lemma counter_refresh_is_detached_witness :
  scan_outcome (submitScan (js "12345678901234") count_fails_world)
  = Some (Accepted (js "12345678901234"))
  /\ length (queue (run (submitScan (js "12345678901234")) count_fails_world)) = 1%nat
  /\ offlineQueueCount (page (run (submitScan (js "12345678901234")) count_fails_world))
     = None
  /\ last (console (trace (run (submitScan (js "12345678901234")) count_fails_world)))
     = Some (UnhandledRejection (VStr (js "IndexedDB error"))).
Proof.
  destruct (counter_refresh_is_detached (js "12345678901234") count_fails_world)
    as (H1 & H2 & _ & H4).
  - repeat split.
  - apply valid_memberId_spec. reflexivity.
  - reflexivity.
  - destruct H4 as (H5 & H6); [reflexivity |].
    split; [exact H1 |]. split; [exact H2 |]. split; [exact H5 | exact H6].
Defined.

Lemma bind_modify_snd {A} (f : World -> World) (k : unit -> M World A) (w : World) :
  snd (bind (modify f) k w) = snd (k tt (f w)).
Proof. reflexivity. Qed.

Lemma bind_gets_snd {A B} (g : World -> A) (k : A -> M World B) (w : World) :
  snd (bind (gets g) k w) = snd (k (g w) w).
Proof. reflexivity. Qed.

(** X5: the keypress listener is local: whatever the key, the input and
    the faults of the storage, it sends no request, consumes no network
    answer, and leaves [localStorage], the settings and the identifier in
    use as they were; and once Enter has been pressed the input field is
    empty, however the listener ends. *)
Theorem keypress_is_local (pressed raw : jsstring) (w : World) :
  net_log (trace (snd (scanInput_keypress pressed w))) = net_log (trace w)
  /\ net_script (env (snd (scanInput_keypress pressed w))) = net_script (env w)
  /\ localStorage (device (snd (scanInput_keypress pressed w))) = localStorage (device w)
  /\ settings (page (snd (scanInput_keypress pressed w))) = settings (page w)
  /\ deviceId (page (snd (scanInput_keypress pressed w))) = deviceId (page w)
  /\ scanInput_value (page (run (submitScan raw) w)) = [].
Proof.
  assert (Hlocal : forall nl ns ls s d,
            preserves (fun w => net_log (trace w) = nl /\ net_script (env w) = ns
                                /\ localStorage (device w) = ls
                                /\ settings (page w) = s /\ deviceId (page w) = d)
              (scanInput_keypress pressed)).
  { intros. preserves_walk; try (intros e w' H; exact H); preserves_leaf; exact H. }
  assert (Hblank : forall memberId,
            preserves (fun w => scanInput_value (page w) = [])
              (s ← gets (fun w => settings (page w));
               if negb (truthy (appsScriptUrl s)) || negb (truthy (storeId s))
                  || negb (truthy (pointValue s))
               then alert AlertSettingsFirst;; set_status TxtSettingsIncomplete ClsError
               else if valid_memberId memberId
                    then addEntry memberId;; detached updateQueueCount;;
                         set_status (TxtPointAdded memberId) ClsSuccess;;
                         displayScanResult (ScanResultRead memberId)
                    else set_status (TxtInvalidMember memberId) ClsError;;
                         displayScanResult ScanResultFailed)).
  { intros. preserves_walk; try (intros e w' H; exact H); preserves_leaf; exact H. }
  destruct (Hlocal _ _ _ _ _ w (conj eq_refl (conj eq_refl (conj eq_refl (conj eq_refl eq_refl)))))
    as (H1 & H2 & H3 & H4 & H5).
  repeat split; try assumption.
  unfold run, submitScan, scanInput_keypress. rewrite eqb_Enter.
  unfold mbind at 1 2 3, M_bind.
  rewrite bind_modify_snd, bind_gets_snd, bind_modify_snd.
  apply Hblank. reflexivity.
Qed.

(* ===================================================================== *)
(** ** Synchronisation on every path *)
(* ===================================================================== *)

Lemma sync_paths_read (w : World) :
  idb_fate 0 w = IdbOk ->
  (queue (run syncData w) = queue w
   /\ localStorage (device (run syncData w)) = localStorage (device w))
  \/ (exists msg,
        remote_success (fetch_fate 0 w) = Some msg
        /\ sync_outcome (syncData w) = Some (Success msg)
        /\ localStorage (device (run syncData w)) =
             <[LAST_SYNC_KEY := js (pretty (hd 0 (clock (env w))))]>
               (localStorage (device w))
        /\ (queue (run syncData w) = []
            \/ (idb_fate 1 w = IdbCommitAborted
                /\ queue w <> []
                /\ queue (run syncData w) = queue w))).
Proof.
  intros Hidb.
  destruct (queue w) as [|e0 es] eqn:Hq.
  - destruct (syncData_nothing_to_sync w Hq) as (_ & _ & _ & _ & _ & H1 & H2);
      [now rewrite Hidb |].
    left. now rewrite H1, H2.
  - assert (Hne : queue w <> []) by (rewrite Hq; discriminate).
    rewrite <- Hq.
    destruct (remote_success (fetch_fate 0 w)) as [msg|] eqn:Hsucc.
    + destruct (idb_fate 1 w) eqn:Hclear.
      * destruct (syncData_accepted w msg Hne Hidb Hsucc Hclear)
          as (Hret & Hst & H1 & H2 & _).
        right. exists msg. split; [reflexivity |].
        split; [now rewrite (sync_outcome_of_status w _ _ Hret Hst) |].
        split; [exact H2 |]. now left.
      * destruct (syncData_clear_failed w msg Hne Hidb Hsucc) as (_ & _ & H & _);
          [now rewrite Hclear |]. left. unfold queue. now rewrite H.
      * destruct (syncData_clear_failed w msg Hne Hidb Hsucc) as (_ & _ & H & _);
          [now rewrite Hclear |]. left. unfold queue. now rewrite H.
      * destruct (syncData_clear_aborted w msg Hne Hidb Hsucc Hclear)
          as (Hret & Hst & H1 & H2 & _).
        right. exists msg. split; [reflexivity |].
        split; [now rewrite (sync_outcome_of_status w _ _ Hret Hst) |].
        split; [exact H2 |]. right. auto.
    + destruct (syncData_failed w Hne Hidb Hsucc) as (_ & _ & H & _).
      left. unfold queue. now rewrite H.
Qed.

(** X6: on every path of a sync, the failure to read the queue included,
    either the queue and [localStorage] are what they were, or the remote
    end has confirmed the batch, the outcome is [Success] and
    [localStorage] has gained the Last-Sync Marker and nothing else; in
    the second case the queue is empty, but for one path: when the
    transaction that clears the queue aborts as it commits, the sync is
    reported and dated as a success and the queue keeps the records that
    were sent. *)
Theorem sync_all_or_nothing_but_aborted_clear (w : World) :
  (queue (run syncData w) = queue w
   /\ localStorage (device (run syncData w)) = localStorage (device w))
  \/ (exists msg,
        remote_success (fetch_fate 0 w) = Some msg
        /\ sync_outcome (syncData w) = Some (Success msg)
        /\ localStorage (device (run syncData w)) =
             <[LAST_SYNC_KEY := js (pretty (hd 0 (clock (env w))))]>
               (localStorage (device w))
        /\ (queue (run syncData w) = []
            \/ (idb_fate 1 w = IdbCommitAborted
                /\ queue w <> []
                /\ queue (run syncData w) = queue w))).
Proof.
  destruct (idb_rejects (idb_fate 0 w)) eqn:Hidb.
  - destruct (syncData_read_failed w Hidb) as (_ & H1 & H2 & _). now left.
  - unfold run. rewrite (syncData_read_fate w Hidb).
    exact (sync_paths_read
             (with_env (set_idb_script (IdbOk :: tl (idb_script (env w)))) w) eq_refl).
Qed.

Lemma getAllEntries_run (w : World) :
  idb_rejects (idb_fate 0 w) = false ->
  exists w1, getAllEntries w = (Return (queue w), w1).
Proof.
  intros Hidb. run_app.
  destruct (hd IdbOk (idb_script (env w))); try discriminate Hidb; cbn;
    destruct (indexedDB (device w)) as [st|] eqn:Hdb; cbn; rewrite ?Hdb; eauto.
Qed.

Lemma try_finally_button {A} (m : M World A) (w : World) :
  syncDataButton_disabled (page (snd (try_finally m syncData_finally w))) = false.
Proof. unfold try_finally, syncData_finally, modify. now destruct (m w). Qed.

(** X7: when the queue can be read, a sync gives the sync button back
    however the submission goes; when the queue cannot be read, the
    exception leaves [syncData] before its [try] block: nothing is sent,
    no outcome is reported, the status line stays on "syncing" and the
    button stays disabled. *)
Theorem sync_button_after (w : World) :
  (idb_rejects (idb_fate 0 w) = false ->
   syncDataButton_disabled (page (run syncData w)) = false)
  /\ (idb_rejects (idb_fate 0 w) = true ->
      sync_outcome (syncData w) = None
      /\ currentStatus (page (run syncData w)) = (TxtSyncing, ClsInfo)
      /\ syncDataButton_disabled (page (run syncData w)) = true
      /\ net_log (trace (run syncData w)) = net_log (trace w)
      /\ queue (run syncData w) = queue w).
Proof.
  split.
  - intros Hidb. unfold run, syncData. unfold mbind at 1 2 3, M_bind.
    unfold set_status at 1. rewrite !bind_modify_snd.
    match goal with
    | |- context [bind getAllEntries ?k ?w1] =>
        destruct (getAllEntries_run w1 Hidb) as (w2 & Hget);
        unfold bind at 1; rewrite Hget
    end.
    destruct (length _ =? 0)%nat.
    + reflexivity.
    + apply try_finally_button.
  - intros Hidb. destruct (syncData_read_failed w Hidb) as (Hret & Hq & _ & Hlog & Hst & Hbtn).
    repeat split; try assumption.
    unfold sync_outcome. destruct (syncData w) as [r w']. cbn in Hret. now rewrite Hret.
Qed.

Lemma sync_button_after_witness :
  syncDataButton_disabled (page (run syncData accepted_world)) = false
  /\ sync_outcome (syncData unreadable_world) = None
  /\ currentStatus (page (run syncData unreadable_world)) = (TxtSyncing, ClsInfo)
  /\ syncDataButton_disabled (page (run syncData unreadable_world)) = true
  /\ net_log (trace (run syncData unreadable_world)) = net_log (trace unreadable_world)
  /\ queue (run syncData unreadable_world) = queue unreadable_world.
Proof.
  split.
  - apply (sync_button_after accepted_world). reflexivity.
  - apply (sync_button_after unreadable_world). reflexivity.
Defined.

Lemma storage_works_fates (n : nat) (w : World) : storage_works w -> idb_fate n w = IdbOk.
Proof.
  unfold storage_works, idb_fate. intros H.
  assert (Hn : Forall (fun o => o = IdbOk) (Nat.iter n (@tl _) (idb_script (env w)))).
  { induction n as [|n IH]; [exact H |].
    change (Forall (fun o => o = IdbOk) (tl (Nat.iter n (@tl _) (idb_script (env w))))).
    destruct (Nat.iter n (@tl _) (idb_script (env w))) as [|o l];
      [exact IH | now inversion IH]. }
  destruct (Nat.iter n (@tl _) (idb_script (env w))) as [|o l];
    [reflexivity | now inversion Hn].
Qed.

(** A failed submission consumes one network answer. *)
Lemma syncData_failed_answers (w : World) :
  queue w <> [] ->
  idb_fate 0 w = IdbOk ->
  remote_success (fetch_fate 0 w) = None ->
  net_script (env (run syncData w)) = tl (net_script (env w)).
Proof.
  intros Hq Hidb Hfail.
  unfold run. remember (syncData w) as R eqn:E.
  run_app. rewrite Hidb in E. cbn in E.
  destruct (indexedDB (device w)) as [st|] eqn:Hdb; [| contradiction].
  cbn in *. rewrite Hdb in E. cbn in E.
  destruct (records st) as [|e0 es] eqn:Hrec; [contradiction |].
  cbn in E.
  destruct (hd OFFLINE (net_script (env w))) as [n m | k [v|]]; cbn in *.
  - rewrite eqb_message in E. cbn in E. now subst R.
  - destruct v, k; cbn in *;
      rewrite ?eqb_status_message, ?eqb_status_name, ?eqb_message in E; cbn in E;
      try (now subst R).
    destruct (strict_eq_200 (lookup_field (js "status") fields)); [discriminate |].
    cbn in E. now subst R.
  - destruct k; cbn in *; rewrite eqb_message in E; cbn in E; now subst R.
Qed.

(** X8: a sync that fails is retried wholesale: when the storage works,
    the first submission of a non-empty queue fails and the next one is
    confirmed, the second sync sends the very same batch, reports
    [Success] and leaves the queue empty; the remote end has then been
    sent the batch twice. *)
Theorem sync_retry_after_failure (w : World) (msg : JsVal) :
  queue w <> [] ->
  storage_works w ->
  remote_success (fetch_fate 0 w) = None ->
  remote_success (fetch_fate 1 w) = Some msg ->
  (exists out, is_failure out /\ sync_outcome (syncData w) = Some out)
  /\ queue (run syncData w) = queue w
  /\ sync_outcome (syncData (run syncData w)) = Some (Success msg)
  /\ queue (run syncData (run syncData w)) = []
  /\ net_log (trace (run syncData (run syncData w))) =
       net_log (trace w)
       ++ [{| req_url := appsScriptUrl (settings (page w));
              req_body := batch_of (settings (page w)) (queue w) (deviceId (page w)) |};
           {| req_url := appsScriptUrl (settings (page w));
              req_body := batch_of (settings (page w)) (queue w) (deviceId (page w)) |};
           {| req_url := appsScriptUrl (settings (page w));
              req_body := UpdateLastSyncTime (deviceId (page w)) |}].
Proof.
  intros Hq Hidb Hfail Hsucc.
  destruct (syncData_failed w Hq (storage_works_fate w Hidb) Hfail)
    as (Hret & (out & _ & Hfailure & Hst) & Hdev & Hlog).
  pose proof (syncData_failed_answers w Hq (storage_works_fate w Hidb) Hfail) as Hnet.
  pose proof (settings_kept (settings (page w)) Sync w eq_refl) as Hs.
  pose proof (deviceId_kept (deviceId (page w)) Sync ltac:(discriminate) w eq_refl) as Hd.
  pose proof (storage_works_kept Sync w Hidb) as Hi.
  cbn [act] in Hs, Hd, Hi. fold (run syncData w) in Hs, Hd, Hi.
  set (w1 := run syncData w) in *.
  assert (Hq1 : queue w1 = queue w) by (unfold queue; now rewrite Hdev).
  assert (Hne1 : queue w1 <> []) by now rewrite Hq1.
  assert (Hsucc1 : remote_success (fetch_fate 0 w1) = Some msg).
  { unfold fetch_fate in *. cbn in *. now rewrite Hnet. }
  destruct (syncData_accepted w1 msg Hne1 (storage_works_fates 0 w1 Hi) Hsucc1
              (storage_works_fates 1 w1 Hi))
    as (Hret2 & Hst2 & Hq2 & _ & Hlog2 & _).
  split.
  { exists out. split; [exact Hfailure |].
    destruct (currentStatus (page w1)) as [t c] eqn:Hcur.
    rewrite (sync_outcome_of_status w t c Hret Hcur). cbn in Hst. subst t.
    now destruct out. }
  split; [exact Hq1 |].
  split; [now rewrite (sync_outcome_of_status w1 _ _ Hret2 Hst2) |].
  split; [exact Hq2 |].
  rewrite Hlog2, Hlog, Hs, Hd, Hq1, <- app_assoc. reflexivity.
Qed.

Lemma sync_retry_after_failure_witness :
  (exists out, is_failure out /\ sync_outcome (syncData retry_world) = Some out)
  /\ queue (run syncData retry_world) = queue retry_world
  /\ sync_outcome (syncData (run syncData retry_world)) = Some (Success (VStr (js "ok")))
  /\ queue (run syncData (run syncData retry_world)) = []
  /\ net_log (trace (run syncData (run syncData retry_world))) =
       net_log (trace retry_world)
       ++ [{| req_url := appsScriptUrl (settings (page retry_world));
              req_body := batch_of (settings (page retry_world)) (queue retry_world)
                            (deviceId (page retry_world)) |};
           {| req_url := appsScriptUrl (settings (page retry_world));
              req_body := batch_of (settings (page retry_world)) (queue retry_world)
                            (deviceId (page retry_world)) |};
           {| req_url := appsScriptUrl (settings (page retry_world));
              req_body := UpdateLastSyncTime (deviceId (page retry_world)) |}].
Proof.
  apply (sync_retry_after_failure retry_world (VStr (js "ok")));
    [discriminate | constructor | reflexivity | reflexivity].
Defined.

(** X9: scans accepted after a confirmed sync are sent alone by the next
    sync: when the storage works and the settings are in place, a sync
    that is confirmed, then a scan, then a sync give a batch that holds
    the new scan and none of the records already sent. *)
Theorem scan_after_sync_sent_alone (w : World) (msg : JsVal) (raw : jsstring) :
  queue w <> [] ->
  storage_works w ->
  settings_present (settings (page w)) ->
  remote_success (fetch_fate 0 w) = Some msg ->
  fourteen_digits (trim raw) ->
  exists t more,
    net_log (trace (run syncData (run (submitScan raw) (run syncData w)))) =
      net_log (trace (run syncData w))
      ++ {| req_url := appsScriptUrl (settings (page w));
            req_body := BatchPayload (storeId (settings (page w)))
                          (pointValue (settings (page w)))
                          [(trim raw, t)] (deviceId (page w)) |}
         :: more.
Proof.
  intros Hq Hidb Hset Hsucc Hraw. apply valid_memberId_spec in Hraw.
  destruct (syncData_accepted w msg Hq (storage_works_fates 0 w Hidb) Hsucc
              (storage_works_fates 1 w Hidb))
    as (_ & _ & Hq1 & _).
  pose proof (settings_kept (settings (page w)) Sync w eq_refl) as Hs1.
  pose proof (deviceId_kept (deviceId (page w)) Sync ltac:(discriminate) w eq_refl) as Hd1.
  pose proof (storage_works_kept Sync w Hidb) as Hi1.
  cbn [act] in Hs1, Hd1, Hi1. fold (run syncData w) in Hs1, Hd1, Hi1.
  set (w1 := run syncData w) in *.
  assert (Hset1 : settings_present (settings (page w1))) by now rewrite Hs1.
  destruct (submitScan_stored raw w1 Hset1 Hraw (storage_works_fates 0 w1 Hi1))
    as (_ & _ & Hq2 & _ & Hlog2).
  pose proof (settings_kept (settings (page w)) (Scan raw) w1 Hs1) as Hs2.
  pose proof (deviceId_kept (deviceId (page w)) (Scan raw) ltac:(discriminate) w1 Hd1) as Hd2.
  pose proof (storage_works_kept (Scan raw) w1 Hi1) as Hi2.
  cbn [act] in Hs2, Hd2, Hi2. fold (run (submitScan raw) w1) in Hs2, Hd2, Hi2.
  set (w2 := run (submitScan raw) w1) in *.
  rewrite Hq1 in Hq2. cbn in Hq2.
  destruct (syncData_submits_queue w2) as (more & Hmore).
  - rewrite Hq2. discriminate.
  - exact (storage_works_fates 0 w2 Hi2).
  - eexists _, more. rewrite Hmore, Hlog2, Hs2, Hd2, Hq2. reflexivity.
Qed.

Lemma scan_after_sync_sent_alone_witness :
  exists t more,
    net_log (trace (run syncData (run (submitScan (js "55555555555555"))
                                   (run syncData accepted_world)))) =
      net_log (trace (run syncData accepted_world))
      ++ {| req_url := appsScriptUrl (settings (page accepted_world));
            req_body := BatchPayload (storeId (settings (page accepted_world)))
                          (pointValue (settings (page accepted_world)))
                          [(trim (js "55555555555555"), t)]
                          (deviceId (page accepted_world)) |}
         :: more.
Proof.
  apply (scan_after_sync_sent_alone accepted_world (VStr (js "ok")) (js "55555555555555")).
  - discriminate.
  - constructor.
  - repeat split.
  - reflexivity.
  - apply valid_memberId_spec. reflexivity.
Defined.

(* ===================================================================== *)
(** ** Device reset *)
(* ===================================================================== *)

(** X10: the statements of [resetDevice] that the source shows (lines
    255-257) empty [localStorage] (the saved settings, the Last-Sync
    Marker and the identifier are gone) and put a new UUID in use, at
    once, while the settings in use stay what they were. The deletion of
    the database is only requested: when the statements have run, the
    queue is still stored. And the new identifier has been written
    nowhere: unless the statements that follow persist it, the next page
    load draws yet another one. *)
Theorem reset_clears_storage_requests_deletion (w : World) :
  localStorage (device (run resetDevice_confirmed w)) = ∅
  /\ deviceId (page (run resetDevice_confirmed w)) = uuid_v4 (hd 0%N (rng (env w)))
  /\ settings (page (run resetDevice_confirmed w)) = settings (page w)
  /\ deleteDatabase_log (trace (run resetDevice_confirmed w))
     = deleteDatabase_log (trace w) ++ [DB_NAME]
  /\ queue (run resetDevice_confirmed w) = queue w
  /\ fst (getOrCreate (run resetDevice_confirmed w))
     = Return (uuid_v4 (hd 0%N (tl (rng (env w))))).
Proof.
  destruct (resetDevice_confirmed_run w) as (Hid & Hls & Hdb & Hset & Hrng & Hlog).
  split; [exact Hls |]. split; [exact Hid |]. split; [exact Hset |].
  split; [exact Hlog |]. split; [unfold queue, objectStore; now rewrite Hdb |].
  destruct (getOrCreate_run (run resetDevice_confirmed w)) as (Hret & _).
  rewrite Hret. unfold identity_of, persistedDeviceId. rewrite Hls, Hrng.
  reflexivity.
Qed.

(* ===================================================================== *)
(** ** The settings form *)
(* ===================================================================== *)

Lemma endsWith_spec (s suffix : jsstring) :
  endsWith s suffix = true <-> exists prefix, s = prefix ++ suffix.
Proof.
  unfold endsWith, jsstring_eqb. rewrite andb_true_iff, Nat.leb_le, bool_decide_eq_true.
  split.
  - intros [Hlen Hdrop]. exists (take (length s - length suffix) s).
    rewrite <- Hdrop at 2. symmetry. apply take_drop.
  - intros [prefix ->]. rewrite length_app. split; [lia |].
    replace (length prefix + length suffix - length suffix)%nat with (length prefix) by lia.
    apply drop_app_length.
Qed.

(** The test of [saveSettings] is the rule of the form. *)
Lemma form_valid_spec (f : SettingsForm) :
  negb (truthy (VStr (trim (appsScriptUrlInput_value f))))
  || negb (endsWith (trim (appsScriptUrlInput_value f)) (js "/exec"))
  || negb (truthy (VStr (trim (storeIdInput_value f))))
  || isNaN (parseInt10 (trim (pointValueInput_value f)))
  || le_zero (parseInt10 (trim (pointValueInput_value f))) = false
  <-> form_valid f.
Proof.
  unfold form_valid.
  rewrite !orb_false_iff, !negb_false_iff, endsWith_spec.
  unfold truthy. rewrite !negb_true_iff, !Nat.eqb_neq.
  destruct (parseInt10 (trim (pointValueInput_value f))) as [|z]; cbn.
  - split; [intros ((((_ & _) & _) & H) & _); discriminate
           | intros (_ & _ & z & H & _); discriminate].
  - rewrite Z.leb_gt. split.
    + intros ((((_ & Hurl) & Hstore) & _) & Hz). split; [exact Hurl |]. split.
      * intros H. rewrite H in Hstore. now apply Hstore.
      * exists z. auto.
    + intros ((prefix & Hurl) & Hstore & z' & [= <-] & Hz).
      repeat split; try assumption.
      * rewrite Hurl, length_app. change (length (js "/exec")) with 5%nat. lia.
      * now exists prefix.
      * destruct (trim (storeIdInput_value f)); [contradiction | discriminate].
Qed.

Section SaveSettingsFacts.

Variable JSON_stringify : Settings -> jsstring.

(** X11: a form that breaks the rule is refused and nothing is persisted,
    but the three values have already been assigned to the settings in
    use; the listener only asks for values that are not empty, zero or
    [NaN], so with such values the next scan of a member number is
    accepted with the settings that were refused. *)
Theorem saveSettings_refused (w : World) (f : SettingsForm) (raw : jsstring) :
  ~ form_valid f ->
  device (world (snd (saveSettings JSON_stringify (shell_of w f)))) = device w
  /\ form_alerts (snd (saveSettings JSON_stringify (shell_of w f))) = [AlertSettingsRefused]
  /\ settings (page (world (snd (saveSettings JSON_stringify (shell_of w f)))))
     = settings_of_form f
  /\ (settings_present (settings_of_form f) ->
      fourteen_digits (trim raw) ->
      idb_fate 0 w = IdbOk ->
      scan_outcome (submitScan raw (world (snd (saveSettings JSON_stringify (shell_of w f)))))
      = Some (Accepted (trim raw))).
Proof.
  intros Hbad.
  assert (Hcond : negb (truthy (VStr (trim (appsScriptUrlInput_value f))))
                  || negb (endsWith (trim (appsScriptUrlInput_value f)) (js "/exec"))
                  || negb (truthy (VStr (trim (storeIdInput_value f))))
                  || isNaN (parseInt10 (trim (pointValueInput_value f)))
                  || le_zero (parseInt10 (trim (pointValueInput_value f))) = true).
  { destruct (_ || _) eqn:H in |- *; [reflexivity |]. now apply form_valid_spec in H. }
  remember (snd (saveSettings JSON_stringify (shell_of w f))) as sh eqn:E.
  unfold saveSettings, in_world, form_alert, assign_appsScriptUrl, assign_storeId,
    assign_pointValue, mbind, M_bind, bind, gets, modify, with_page in E.
  cbn in E. rewrite Hcond in E. cbn in E. subst sh. cbn.
  split; [reflexivity |]. split; [reflexivity |]. split; [reflexivity |].
  intros Hset Hraw Hidb. apply valid_memberId_spec in Hraw.
  match goal with
  | |- scan_outcome (submitScan raw ?w1) = _ =>
      destruct (submitScan_stored raw w1 Hset Hraw Hidb) as (Hret & Hst & _);
      now rewrite (scan_outcome_of_status raw w1 _ _ Hret Hst)
  end.
Qed.

(** X12: a form that keeps the rule is saved: the settings in use are the
    trimmed address and store identifier and the point value that
    [parseInt] reads, they are written under [pointCardSettings] and to
    no other entry, the queue is untouched, and they pass the test of the
    listener. *)
Theorem saveSettings_saved (w : World) (f : SettingsForm) :
  form_valid f ->
  localStorage (device (world (snd (saveSettings JSON_stringify (shell_of w f)))))
  = <[SETTINGS_KEY := JSON_stringify (settings_of_form f)]> (localStorage (device w))
  /\ indexedDB (device (world (snd (saveSettings JSON_stringify (shell_of w f)))))
     = indexedDB (device w)
  /\ form_alerts (snd (saveSettings JSON_stringify (shell_of w f))) = [AlertSettingsSaved]
  /\ settings (page (world (snd (saveSettings JSON_stringify (shell_of w f)))))
     = settings_of_form f
  /\ settings_present (settings_of_form f).
Proof.
  intros Hok. pose proof Hok as Hcond. apply form_valid_spec in Hcond.
  remember (snd (saveSettings JSON_stringify (shell_of w f))) as sh eqn:E.
  unfold saveSettings, in_world, form_alert, assign_appsScriptUrl, assign_storeId,
    assign_pointValue, localStorage_setItem, mbind, M_bind, bind, gets, modify,
    with_page, with_device in E.
  cbn in E. rewrite Hcond in E. cbn in E. subst sh. cbn.
  repeat split.
  - apply orb_false_iff in Hcond as [Hcond _].
    apply orb_false_iff in Hcond as [Hcond _].
    apply orb_false_iff in Hcond as [Hcond _].
    apply orb_false_iff in Hcond as [Hcond _].
    now apply negb_false_iff in Hcond.
  - apply orb_false_iff in Hcond as [Hcond _].
    apply orb_false_iff in Hcond as [Hcond _].
    apply orb_false_iff in Hcond as [_ Hcond].
    now apply negb_false_iff in Hcond.
  - destruct Hok as (_ & _ & z & Hz & Hpos). cbn. rewrite Hz. unfold truthy.
    apply negb_true_iff, Z.eqb_neq. lia.
Qed.

End SaveSettingsFacts.

Lemma saveSettings_refused_witness :
  device (world (snd (saveSettings (fun _ => js "{}") (shell_of unconfigured_world refused_form))))
  = device unconfigured_world
  /\ form_alerts (snd (saveSettings (fun _ => js "{}") (shell_of unconfigured_world refused_form)))
     = [AlertSettingsRefused]
  /\ settings (page (world (snd (saveSettings (fun _ => js "{}")
                                   (shell_of unconfigured_world refused_form)))))
     = {| appsScriptUrl := VStr (js "https://script.example/macros/s/AK/dev");
          storeId := VStr (js "store-01");
          pointValue := VNum (Num (-3)) |}
  /\ scan_outcome (submitScan (js "12345678901234")
                     (world (snd (saveSettings (fun _ => js "{}")
                                    (shell_of unconfigured_world refused_form)))))
     = Some (Accepted (js "12345678901234")).
Proof.
  destruct (saveSettings_refused (fun _ => js "{}") unconfigured_world refused_form
              (js "12345678901234"))
    as (H1 & H2 & H3 & H4).
  - intros (Hurl & _). apply endsWith_spec in Hurl. discriminate.
  - split; [exact H1 |]. split; [exact H2 |]. split; [exact H3 |].
    apply H4; [repeat split | apply valid_memberId_spec; reflexivity | reflexivity].
Defined.

Lemma saveSettings_saved_witness :
  localStorage (device (world (snd (saveSettings (fun _ => js "{}")
                                      (shell_of unconfigured_world accepted_form)))))
  = <[SETTINGS_KEY := js "{}"]> (localStorage (device unconfigured_world))
  /\ indexedDB (device (world (snd (saveSettings (fun _ => js "{}")
                                      (shell_of unconfigured_world accepted_form)))))
     = indexedDB (device unconfigured_world)
  /\ form_alerts (snd (saveSettings (fun _ => js "{}")
                         (shell_of unconfigured_world accepted_form)))
     = [AlertSettingsSaved]
  /\ settings (page (world (snd (saveSettings (fun _ => js "{}")
                                  (shell_of unconfigured_world accepted_form)))))
     = {| appsScriptUrl := VStr (js "https://script.example/macros/s/AK/exec");
          storeId := VStr (js "store-01");
          pointValue := VNum (Num 5) |}
  /\ settings_present (settings_of_form accepted_form).
Proof.
  apply (saveSettings_saved (fun _ => js "{}") unconfigured_world accepted_form).
  split; [| split].
  - apply endsWith_spec. reflexivity.
  - discriminate.
  - exists 5. split; [reflexivity | lia].
Defined.

(* ===================================================================== *)
(** ** The service worker: install, activate, fetch *)
(* ===================================================================== *)

Lemma sw_fetch_all_ok (urls : list jsstring) (st : SW.State) :
  Forall (sw_available st) urls ->
  exists rs,
    SW.fetch_all urls st
    = (Return rs, {| SW.caches := SW.caches st; SW.network := SW.network st;
                     SW.net_log := SW.net_log st ++ map SW.GET urls;
                     SW.console := SW.console st |})
    /\ map fst rs = urls
    /\ Forall (fun ur => SW.network st (SW.GET (fst ur)) = Some (snd ur)) rs.
Proof.
  revert st. induction urls as [|u urls IH]; intros st Hall; cbn.
  - exists []. rewrite app_nil_r. destruct st; auto.
  - inversion Hall as [|? ? (r & Hnet & Hok) Hrest]; subst.
    unfold mbind, M_bind, bind, SW.fetch. rewrite Hnet, Hok. cbn.
    match goal with
    | |- context [SW.fetch_all urls ?st1] =>
        destruct (IH st1) as (rs & Hrs & Hkeys & Hnets); [exact Hrest | rewrite Hrs]
    end.
    cbn. exists ((u, r) :: rs). rewrite <- app_assoc. cbn. rewrite Hkeys.
    split; [reflexivity |]. split; [reflexivity |]. constructor; assumption.
Qed.

Lemma jsstring_eqb_refl (a : jsstring) : jsstring_eqb a a = true.
Proof. unfold jsstring_eqb. now apply bool_decide_eq_true_2. Qed.

Lemma jsstring_eqb_neq (a b : jsstring) : a <> b -> jsstring_eqb a b = false.
Proof. unfold jsstring_eqb. now apply bool_decide_eq_false_2. Qed.

Lemma jsstring_eqb_eq (a b : jsstring) : jsstring_eqb a b = true -> a = b.
Proof. unfold jsstring_eqb. now apply bool_decide_eq_true_1. Qed.

Lemma jsstring_eqb_cases (a b : jsstring) :
  (a = b /\ jsstring_eqb a b = true) \/ (a <> b /\ jsstring_eqb a b = false).
Proof.
  destruct (decide (a = b)) as [-> | Hne];
    [left; split; [reflexivity | apply jsstring_eqb_refl]
    | right; split; [exact Hne | now apply jsstring_eqb_neq]].
Qed.

Lemma Cache_find_put_eq (u : jsstring) (r : SW.Response) (c : SW.Cache) :
  SW.Cache_find u (SW.Cache_put u r c) = Some r.
Proof.
  unfold SW.Cache_put. induction c as [|[u' r'] c IH]; cbn.
  - now rewrite jsstring_eqb_refl.
  - destruct (jsstring_eqb_cases u u') as [[-> H] | [Hne H]]; rewrite H; cbn;
      [exact IH | now rewrite H].
Qed.

Lemma Cache_find_put_ne (u u' : jsstring) (r : SW.Response) (c : SW.Cache) :
  u <> u' -> SW.Cache_find u (SW.Cache_put u' r c) = SW.Cache_find u c.
Proof.
  intros Hne. unfold SW.Cache_put. induction c as [|[u'' r''] c IH]; cbn.
  - now rewrite jsstring_eqb_neq.
  - destruct (jsstring_eqb_cases u' u'') as [[<- H] | [Hne' H]]; rewrite H; cbn.
    + now rewrite (jsstring_eqb_neq u u').
    + destruct (jsstring_eqb u u''); [reflexivity | exact IH].
Qed.

Lemma Cache_find_putAll (u : jsstring) (rs : list (jsstring * SW.Response)) (c : SW.Cache) :
  In u (map fst rs) -> exists r, SW.Cache_find u (SW.Cache_putAll rs c) = Some r.
Proof.
  unfold SW.Cache_putAll. revert c.
  induction rs as [|[u' r'] rs IH]; intros c; cbn; [tauto |].
  destruct (decide (u ∈ map fst rs)) as [Hin | Hout]; rewrite list_elem_of_In in *.
  - intros _. now apply IH.
  - intros [-> | Hin]; [| contradiction].
    clear IH. exists r'.
    assert (Hkeep : forall c', SW.Cache_find u c' = Some r' ->
              SW.Cache_find u (fold_left (fun acc e => SW.Cache_put e.1 e.2 acc) rs c')
              = Some r').
    { induction rs as [|[u2 r2] rs IH]; intros c' Hc'; cbn; [exact Hc' |].
      apply IH.
      - intros H. apply Hout. now right.
      - rewrite Cache_find_put_ne; [exact Hc' |].
        intros ->. apply Hout. now left. }
    apply Hkeep, Cache_find_put_eq.
Qed.

Lemma CacheStorage_match_found (u : jsstring) (cs : SW.CacheStorage)
      (name : jsstring) (c : SW.Cache) (r : SW.Response) :
  In (name, c) cs -> SW.Cache_find u c = Some r ->
  exists r', SW.CacheStorage_match (SW.GET u) cs = Some r'.
Proof.
  induction cs as [|[name' c'] cs IH]; cbn; [tauto |].
  intros Hin Hfind. unfold SW.Cache_match. cbn. rewrite jsstring_eqb_refl.
  destruct (SW.Cache_find u c') as [r0|] eqn:Hc'; [eauto |].
  destruct Hin as [[= -> ->] | Hin]; [congruence |].
  now apply IH.
Qed.

Lemma Cache_find_putAll_exact (u : jsstring) (r : SW.Response)
      (rs : list (jsstring * SW.Response)) (c : SW.Cache) :
  List.NoDup (map fst rs) -> In (u, r) rs ->
  SW.Cache_find u (SW.Cache_putAll rs c) = Some r.
Proof.
  unfold SW.Cache_putAll. revert c.
  induction rs as [|[u' r'] rs IH]; intros c Hnd Hin; cbn; [destruct Hin |].
  inversion Hnd as [|? ? Hout Hnd']; subst.
  destruct Hin as [[= -> ->] | Hin]; [| now apply IH].
  clear IH Hnd Hnd'.
  generalize (Cache_find_put_eq u r c). generalize (SW.Cache_put u r c).
  induction rs as [|[u2 r2] rs IH]; intros c' Hc'; cbn; [exact Hc' |].
  apply IH.
  - intros H. apply Hout. now right.
  - rewrite Cache_find_put_ne; [exact Hc' |]. intros ->. apply Hout. now left.
Qed.

Lemma has_cache_In (name : jsstring) (cs : SW.CacheStorage) :
  SW.has_cache name cs = true -> exists c, In (name, c) cs.
Proof.
  unfold SW.has_cache. rewrite existsb_exists.
  intros ([name' c] & Hin & Heq). apply jsstring_eqb_eq in Heq. cbn in Heq. subst.
  eauto.
Qed.

Lemma opened_has (cs : SW.CacheStorage) : exists c, In (SW.CACHE_NAME, c) (opened cs).
Proof.
  unfold opened. destruct (SW.has_cache SW.CACHE_NAME cs) eqn:H.
  - now apply has_cache_In.
  - exists []. apply in_or_app. right. now left.
Qed.

Lemma Cache_addAll_ok (name : jsstring) (urls : list jsstring) (st : SW.State) :
  Forall (sw_available st) urls ->
  exists rs,
    map fst rs = urls
    /\ Forall (fun ur => SW.network st (SW.GET (fst ur)) = Some (snd ur)) rs
    /\ SW.Cache_addAll name urls st
       = (Return tt,
          {| SW.caches :=
               map (fun nc => if jsstring_eqb name (fst nc)
                              then (fst nc, SW.Cache_putAll rs (snd nc)) else nc)
                   (SW.caches st);
             SW.network := SW.network st;
             SW.net_log := SW.net_log st ++ map SW.GET urls;
             SW.console := SW.console st |}).
Proof.
  intros Hall. destruct (sw_fetch_all_ok urls st Hall) as (rs & Hrs & Hkeys & Hnets).
  exists rs. split; [exact Hkeys |]. split; [exact Hnets |].
  unfold SW.Cache_addAll, mbind, M_bind, bind. rewrite Hrs. reflexivity.
Qed.

(** The run of a successful [install]. *)
Lemma oninstall_ok (st : SW.State) :
  Forall (sw_available st) SW.urlsToCache ->
  exists rs,
    map fst rs = SW.urlsToCache
    /\ Forall (fun ur => SW.network st (SW.GET (fst ur)) = Some (snd ur)) rs
    /\ SW.oninstall st
       = (Return tt,
          {| SW.caches :=
               map (fun nc => if jsstring_eqb SW.CACHE_NAME (fst nc)
                              then (fst nc, SW.Cache_putAll rs (snd nc)) else nc)
                   (opened (SW.caches st));
             SW.network := SW.network st;
             SW.net_log := SW.net_log st ++ map SW.GET SW.urlsToCache;
             SW.console := SW.console st ++ [js "Opened cache"] |}).
Proof.
  intros Hall.
  unfold SW.oninstall, SW.caches_open, SW.console_log, mbind, M_bind, bind, modify.
  match goal with
  | |- context [SW.Cache_addAll SW.CACHE_NAME SW.urlsToCache ?s2] =>
      destruct (Cache_addAll_ok SW.CACHE_NAME SW.urlsToCache s2)
        as (rs & Hkeys & Hnets & Hrun)
  end.
  { eapply Forall_impl; [exact Hall |]. intros u (r & Hnet & Hok). exists r.
    split; [| exact Hok]. cbn. now destruct (SW.has_cache _ _). }
  exists rs. split; [exact Hkeys |]. split.
  { eapply Forall_impl; [exact Hnets |]. intros ur H. cbn in H.
    now destruct (SW.has_cache _ _) in H. }
  rewrite Hrun. unfold opened, SW.set_caches.
  destruct (SW.has_cache SW.CACHE_NAME (SW.caches st)); reflexivity.
Qed.

Lemma onfetch_hit (request : SW.Request) (st : SW.State) (r : SW.Response) :
  SW.CacheStorage_match request (SW.caches st) = Some r ->
  SW.onfetch request st = (Return r, st).
Proof.
  intros H. unfold SW.onfetch, SW.caches_match, mbind, M_bind, bind, gets.
  now rewrite H.
Qed.

(** X13: when the network has the seven resources of [urlsToCache], the
    install succeeds after one request for each, and from then on the
    worker answers a request for any of them from the caches, without
    the network and whatever has become of it. *)
Theorem install_serves_shell_offline (st : SW.State) (u : jsstring)
        (later : SW.Request -> option SW.Response) :
  Forall (sw_available st) SW.urlsToCache ->
  In u SW.urlsToCache ->
  fst (SW.oninstall st) = Return tt
  /\ SW.net_log (snd (SW.oninstall st)) = SW.net_log st ++ map SW.GET SW.urlsToCache
  /\ exists r,
       fst (SW.onfetch (SW.GET u) (sw_set_network later (snd (SW.oninstall st)))) = Return r
       /\ SW.net_log (snd (SW.onfetch (SW.GET u)
                             (sw_set_network later (snd (SW.oninstall st)))))
          = SW.net_log (snd (SW.oninstall st)).
Proof.
  intros Hall Hu. destruct (oninstall_ok st Hall) as (rs & Hkeys & _ & Hrun).
  rewrite Hrun. cbn [fst snd SW.net_log].
  split; [reflexivity |]. split; [reflexivity |].
  destruct (opened_has (SW.caches st)) as (c & Hc).
  destruct (Cache_find_putAll u rs c) as (r & Hr); [now rewrite Hkeys |].
  match goal with
  | |- context [sw_set_network later ?s] =>
      destruct (CacheStorage_match_found u (SW.caches (sw_set_network later s))
                  SW.CACHE_NAME (SW.Cache_putAll rs c) r) as (r' & Hr')
  end.
  - cbn. apply in_map_iff. exists (SW.CACHE_NAME, c). cbn.
    now rewrite jsstring_eqb_refl.
  - exact Hr.
  - exists r'. now rewrite (onfetch_hit _ _ r' Hr').
Qed.

Lemma install_serves_shell_offline_witness :
  fst (SW.oninstall sw_fresh) = Return tt
  /\ SW.net_log (snd (SW.oninstall sw_fresh)) = SW.net_log sw_fresh ++ map SW.GET SW.urlsToCache
  /\ exists r,
       fst (SW.onfetch (SW.GET (js "app.js"))
              (sw_set_network sw_no_network (snd (SW.oninstall sw_fresh)))) = Return r
       /\ SW.net_log (snd (SW.onfetch (SW.GET (js "app.js"))
                             (sw_set_network sw_no_network (snd (SW.oninstall sw_fresh)))))
          = SW.net_log (snd (SW.oninstall sw_fresh)).
Proof.
  apply (install_serves_shell_offline sw_fresh (js "app.js") sw_no_network).
  - repeat (apply List.Forall_cons; [eexists; split; reflexivity |]). apply List.Forall_nil.
  - right. right. now left.
Defined.

Lemma CacheStorage_match_opened (request : SW.Request) (cs : SW.CacheStorage) :
  SW.CacheStorage_match request (opened cs) = SW.CacheStorage_match request cs.
Proof.
  unfold opened. destruct (SW.has_cache SW.CACHE_NAME cs); [reflexivity |].
  induction cs as [|[name c] cs IH]; cbn.
  - unfold SW.Cache_match. now destruct (jsstring_eqb _ _).
  - now rewrite IH.
Qed.

Lemma sw_fetch_all_fails (urls : list jsstring) (st : SW.State) :
  Exists (fun u => ~ sw_available st u) urls ->
  exists e st', SW.fetch_all urls st = (Throw e, st') /\ SW.caches st' = SW.caches st.
Proof.
  revert st. induction urls as [|u urls IH]; intros st Hex; [inversion Hex |].
  cbn. unfold mbind, M_bind, bind, SW.fetch.
  destruct (SW.network st (SW.GET u)) as [r|] eqn:Hnet; [| cbn; eauto].
  destruct (SW.ok r) eqn:Hok; [| cbn; eauto].
  cbn.
  match goal with
  | |- context [SW.fetch_all urls ?st1] =>
      destruct (IH st1) as (e & st' & Hrun & Hcaches)
  end.
  - inversion Hex as [? ? Hbad | ? ? Hrest]; subst.
    + destruct Hbad. now exists r.
    + eapply Exists_impl; [exact Hrest |]. intros u' Hu' (r' & Hr' & Hok').
      apply Hu'. now exists r'.
  - rewrite Hrun. cbn. eauto.
Qed.

(** X14: when one of the seven resources is missing from the network or
    comes back with a status that is not [ok], the install fails and
    stores nothing: every request finds in the caches what it found
    before, nothing more. *)
Theorem install_fails_without_caching (st : SW.State) (request : SW.Request) :
  Exists (fun u => ~ sw_available st u) SW.urlsToCache ->
  (exists e, fst (SW.oninstall st) = Throw e)
  /\ SW.CacheStorage_match request (SW.caches (snd (SW.oninstall st)))
     = SW.CacheStorage_match request (SW.caches st).
Proof.
  intros Hex.
  unfold SW.oninstall, SW.caches_open, SW.console_log, SW.Cache_addAll,
    mbind, M_bind, bind, modify.
  match goal with
  | |- context [SW.fetch_all SW.urlsToCache ?s2] =>
      destruct (sw_fetch_all_fails SW.urlsToCache s2) as (e & st' & Hrun & Hcaches)
  end.
  { eapply Exists_impl; [exact Hex |]. intros u Hu (r & Hr & Hok). apply Hu.
    exists r. split; [| exact Hok]. cbn in Hr. now destruct (SW.has_cache _ _) in Hr. }
  rewrite Hrun. cbn [fst snd]. split; [eauto |].
  rewrite Hcaches. cbn.
  rewrite <- (CacheStorage_match_opened request (SW.caches st)). unfold opened.
  now destruct (SW.has_cache _ _).
Qed.

Lemma install_fails_without_caching_witness :
  (exists e, fst (SW.oninstall (sw_set_network sw_network_no_manifest sw_fresh)) = Throw e)
  /\ SW.CacheStorage_match (SW.GET (js "index.html"))
       (SW.caches (snd (SW.oninstall (sw_set_network sw_network_no_manifest sw_fresh))))
     = SW.CacheStorage_match (SW.GET (js "index.html"))
         (SW.caches (sw_set_network sw_network_no_manifest sw_fresh)).
Proof.
  apply (install_fails_without_caching (sw_set_network sw_network_no_manifest sw_fresh)
           (SW.GET (js "index.html"))).
  do 3 apply List.Exists_cons_tl. apply List.Exists_cons_hd.
  intros (r & Hr & _). discriminate.
Defined.

Lemma bind_ret_run {S A B} (a : A) (k : A -> M S B) (s : S) :
  bind (ret a) k s = k a s.
Proof. reflexivity. Qed.

Lemma bind_modify_run {S B} (g : S -> S) (k : unit -> M S B) (s : S) :
  bind (modify g) k s = k tt (g s).
Proof. reflexivity. Qed.

(** Deleting the caches of a list of names, the current one excepted. *)
Lemma for_each_delete (names : list jsstring) (st : SW.State) :
  let f := fun cacheName =>
             if existsb (jsstring_eqb cacheName) [SW.CACHE_NAME] then ret tt
             else SW.caches_delete cacheName in
  fst (SW.for_each f names st) = Return tt
  /\ SW.caches (snd (SW.for_each f names st))
     = List.filter (fun nc => jsstring_eqb (fst nc) SW.CACHE_NAME
                              || negb (existsb (jsstring_eqb (fst nc)) names))
         (SW.caches st)
  /\ SW.net_log (snd (SW.for_each f names st)) = SW.net_log st
  /\ SW.network (snd (SW.for_each f names st)) = SW.network st.
Proof.
  intros f. revert st. induction names as [|n names IH]; intros st.
  - cbn. repeat split. induction (SW.caches st) as [|nc cs IHc]; cbn; [reflexivity |].
    rewrite orb_true_r. now f_equal.
  - cbn [SW.for_each]. unfold mbind, M_bind.
    assert (Hf : f n = if jsstring_eqb n SW.CACHE_NAME then ret tt
                       else SW.caches_delete n).
    { unfold f. cbn [existsb]. now rewrite orb_false_r. }
    rewrite Hf. clear Hf.
    destruct (jsstring_eqb_cases n SW.CACHE_NAME) as [[-> Hn] | [Hne Hn]]; rewrite Hn.
    + rewrite bind_ret_run. destruct (IH st) as (H1 & H2 & H3 & H4).
      split; [exact H1 |]. split; [| split; assumption].
      rewrite H2. apply filter_ext. intros [name c]. cbn.
      destruct (jsstring_eqb_cases name SW.CACHE_NAME) as [[-> H] | [Hne H]];
        rewrite H; [reflexivity | reflexivity].
    + unfold SW.caches_delete. rewrite bind_modify_run.
      match goal with
      | |- context [SW.for_each f names ?st1] => destruct (IH st1) as (H1 & H2 & H3 & H4)
      end.
      split; [exact H1 |]. split; [| split; assumption].
      rewrite H2. cbn [SW.caches SW.set_caches].
      clear -Hne. induction (SW.caches st) as [|[name c] cs IHc]; cbn; [reflexivity |].
      destruct (jsstring_eqb_cases n name) as [[<- H] | [Hne' H]]; rewrite H; cbn.
      * rewrite (jsstring_eqb_neq n SW.CACHE_NAME) by assumption.
        cbn. exact IHc.
      * rewrite (jsstring_eqb_neq name n) by congruence. cbn.
        destruct (_ || _); [now f_equal | exact IHc].
Qed.

Lemma onactivate_run (st : SW.State) :
  fst (SW.onactivate st) = Return tt
  /\ SW.caches (snd (SW.onactivate st))
     = List.filter (fun nc => jsstring_eqb (fst nc) SW.CACHE_NAME) (SW.caches st)
  /\ SW.net_log (snd (SW.onactivate st)) = SW.net_log st.
Proof.
  unfold SW.onactivate. cbn zeta. unfold mbind, M_bind, bind, gets.
  destruct (for_each_delete (map fst (SW.caches st)) st) as (H1 & H2 & H3 & _).
  cbn zeta in H1, H2, H3.
  split; [exact H1 |]. split; [| exact H3].
  rewrite H2. apply filter_ext_in. intros [name c] Hin. cbn.
  replace (existsb (jsstring_eqb name) (map fst (SW.caches st))) with true;
    [now rewrite orb_false_r |].
  symmetry. apply existsb_exists. exists name. split; [| apply jsstring_eqb_refl].
  apply in_map_iff. now exists (name, c).
Qed.

Lemma onactivate_In (st : SW.State) (name : jsstring) (c : SW.Cache) :
  In (name, c) (SW.caches (snd (SW.onactivate st)))
  <-> In (name, c) (SW.caches st) /\ name = SW.CACHE_NAME.
Proof.
  destruct (onactivate_run st) as (_ & -> & _). rewrite filter_In. cbn. split.
  - intros [Hin Heq]. split; [exact Hin | now apply jsstring_eqb_eq].
  - intros [Hin ->]. split; [exact Hin | apply jsstring_eqb_refl].
Qed.

(** X15: the activation always succeeds and sends nothing to the network.
    Of the caches it finds, exactly those named [CACHE_NAME] are left,
    with their contents and in their order; every cache of another name
    is deleted. *)
Theorem activate_keeps_current_cache_only (st : SW.State) :
  fst (SW.onactivate st) = Return tt
  /\ SW.net_log (snd (SW.onactivate st)) = SW.net_log st
  /\ SW.caches (snd (SW.onactivate st))
     = List.filter (fun nc => jsstring_eqb (fst nc) SW.CACHE_NAME) (SW.caches st)
  /\ (forall name c, In (name, c) (SW.caches (snd (SW.onactivate st)))
                     <-> In (name, c) (SW.caches st) /\ name = SW.CACHE_NAME).
Proof.
  destruct (onactivate_run st) as (H1 & H2 & H3).
  split; [exact H1 |]. split; [exact H3 |]. split; [exact H2 |].
  intros name c. rewrite H2, filter_In. cbn. split.
  - intros [Hin Heq]. split; [exact Hin | now apply jsstring_eqb_eq].
  - intros [Hin ->]. split; [exact Hin | apply jsstring_eqb_refl].
Qed.

Lemma CacheStorage_match_not_GET (request : SW.Request) (cs : SW.CacheStorage) :
  SW.method request <> js "GET" -> SW.CacheStorage_match request cs = None.
Proof.
  intros Hm. induction cs as [|[name c] cs IH]; cbn; [reflexivity |].
  unfold SW.Cache_match. now rewrite (jsstring_eqb_neq _ _ Hm).
Qed.

(** X16: a request that is not a [GET], such as the [POST] of a sync,
    is never answered from the caches, whatever they hold: it goes to the
    network, and the worker answers, or fails, as the network does. *)
Theorem onfetch_passes_posts_through (st : SW.State) (request : SW.Request) :
  SW.method request <> js "GET" ->
  fst (SW.onfetch request st) =
    match SW.network st request with
    | Some r => Return r
    | None => Throw (VError (js "TypeError") (js "Failed to fetch"))
    end
  /\ SW.net_log (snd (SW.onfetch request st)) = SW.net_log st ++ [request]
  /\ SW.caches (snd (SW.onfetch request st)) = SW.caches st.
Proof.
  intros Hm.
  unfold SW.onfetch, SW.caches_match, SW.fetch, mbind, M_bind, bind, gets.
  rewrite (CacheStorage_match_not_GET request _ Hm).
  destruct (SW.network st request); cbn; auto.
Qed.

Lemma onfetch_passes_posts_through_witness :
  fst (SW.onfetch {| SW.method := js "POST"; SW.url := js "index.html" |} sw_installed) =
    match SW.network sw_installed {| SW.method := js "POST"; SW.url := js "index.html" |} with
    | Some r => Return r
    | None => Throw (VError (js "TypeError") (js "Failed to fetch"))
    end
  /\ SW.net_log (snd (SW.onfetch {| SW.method := js "POST"; SW.url := js "index.html" |}
                        sw_installed))
     = SW.net_log sw_installed ++ [{| SW.method := js "POST"; SW.url := js "index.html" |}]
  /\ SW.caches (snd (SW.onfetch {| SW.method := js "POST"; SW.url := js "index.html" |}
                       sw_installed))
     = SW.caches sw_installed.
Proof.
  apply (onfetch_passes_posts_through sw_installed
           {| SW.method := js "POST"; SW.url := js "index.html" |}).
  discriminate.
Defined.

Lemma urlsToCache_NoDup : List.NoDup SW.urlsToCache.
Proof.
  unfold SW.urlsToCache.
  repeat (apply List.NoDup_cons;
          [cbn [In]; intros Hin;
           repeat (destruct Hin as [Hin | Hin]; [vm_compute in Hin; discriminate Hin |]);
           exact Hin |]).
  apply List.NoDup_nil.
Qed.

Lemma CacheStorage_match_all (u : jsstring) (r : SW.Response) (cs : SW.CacheStorage) :
  cs <> [] ->
  (forall name c, In (name, c) cs -> SW.Cache_find u c = Some r) ->
  SW.CacheStorage_match (SW.GET u) cs = Some r.
Proof.
  destruct cs as [|[name c] cs]; [congruence |]. intros _ Hall. cbn.
  unfold SW.Cache_match. cbn. rewrite jsstring_eqb_refl.
  now rewrite (Hall name c (or_introl eq_refl)).
Qed.

(** X17: after an install that succeeded and the activation that follows
    it, a request for one of the seven resources is answered with the
    response that this install fetched, not with an older copy, and
    without the network: the caches of other names are gone, and in the
    cache of the current name the new response has replaced any older
    one. *)
Theorem upgrade_serves_fresh_shell (st : SW.State) (u : jsstring) (r : SW.Response)
        (later : SW.Request -> option SW.Response) :
  Forall (sw_available st) SW.urlsToCache ->
  In u SW.urlsToCache ->
  SW.network st (SW.GET u) = Some r ->
  SW.onfetch (SW.GET u)
    (sw_set_network later (snd (SW.onactivate (snd (SW.oninstall st)))))
  = (Return r, sw_set_network later (snd (SW.onactivate (snd (SW.oninstall st))))).
Proof.
  intros Hall Hu Hnet.
  destruct (oninstall_ok st Hall) as (rs & Hkeys & Hnets & Hrun).
  apply onfetch_hit. cbn [SW.caches sw_set_network].
  pose proof (onactivate_In (snd (SW.oninstall st))) as Hiff.
  assert (Hin : In (u, r) rs).
  { rewrite <- Hkeys in Hu. apply in_map_iff in Hu as ([u' r'] & Heq & Hin).
    cbn in Heq. subst u'. rewrite List.Forall_forall in Hnets.
    specialize (Hnets _ Hin). cbn in Hnets. congruence. }
  apply CacheStorage_match_all.
  - destruct (opened_has (SW.caches st)) as (c & Hc).
    intros Hempty.
    assert (Hmem : In (SW.CACHE_NAME, SW.Cache_putAll rs c)
                     (SW.caches (snd (SW.onactivate (snd (SW.oninstall st)))))).
    { apply Hiff. split; [| reflexivity]. rewrite Hrun. cbn.
      apply in_map_iff. exists (SW.CACHE_NAME, c). cbn.
      now rewrite jsstring_eqb_refl. }
    rewrite Hempty in Hmem. destruct Hmem.
  - intros name c Hc. apply Hiff in Hc as [Hc ->].
    rewrite Hrun in Hc. cbn in Hc. apply in_map_iff in Hc as ([name' c'] & Heq & _).
    cbn in Heq. destruct (jsstring_eqb SW.CACHE_NAME name') eqn:Hn.
    + injection Heq as _ <-. apply Cache_find_putAll_exact; [| exact Hin].
      rewrite Hkeys. apply urlsToCache_NoDup.
    + injection Heq as Hname _. rewrite Hname, jsstring_eqb_refl in Hn. discriminate Hn.
Qed.

Lemma upgrade_serves_fresh_shell_witness :
  SW.onfetch (SW.GET (js "index.html"))
    (sw_set_network sw_no_network (snd (SW.onactivate (snd (SW.oninstall sw_upgraded)))))
  = (Return {| SW.ok := true; SW.content := js "index.html" |},
     sw_set_network sw_no_network (snd (SW.onactivate (snd (SW.oninstall sw_upgraded))))).
Proof.
  apply (upgrade_serves_fresh_shell sw_upgraded (js "index.html")
           {| SW.ok := true; SW.content := js "index.html" |} sw_no_network).
  - repeat (apply List.Forall_cons; [eexists; split; reflexivity |]). apply List.Forall_nil.
  - right. now left.
  - reflexivity.
Defined.
